(** * tax-fitter: the reverse tax calculation of [@tax-fitter/core]

    A shallow embedding of [packages/core/src/calculate.ts] and of the
    types of [packages/core/src/types.ts].

    Numbers.  The source computes on JavaScript numbers.  Amounts
    ([subtotal], [targetTotal], discounts, totals) are integers of the
    smallest currency unit and are embedded as [Z]; the tax rate is a
    fraction and is embedded as an exact rational [Q], so that
    [amount * taxRate] is the exact product and [Math.floor], [Math.ceil]
    and [Math.round] are the exact integer roundings of it.  The proofs
    about the searches use two facts about the tax primitive only: it is
    non-negative on non-negative amounts ([applyTax_nonneg]) and
    non-decreasing in the amount ([applyTax_mono]).

    The source holds two versions of [calculateAdjustment]: a binary
    search (module [Bisection]) and a scan around an estimate (module
    [Estimate]). *)

From Stdlib Require Import ZArith QArith Qround Bool List String Lia Lqa.
From Stdlib Require Import DecimalString.
From Equations Require Import Equations.
From Equations.Prop Require Import Logic.
Import ListNotations.

Local Open Scope Z_scope.

(** ** types.ts *)

(** [type RoundMode = 'floor' | 'ceil' | 'round'] *)
Inductive RoundMode : Set :=
| floor
| ceil
| round.

(** [interface AdjustmentParams]; [roundMode?] is optional. *)
Record AdjustmentParams : Set := mkParams {
  subtotal : Z;
  targetTotal : Z;
  taxRate : Q;
  roundMode : option RoundMode
}.

(** [interface AdjustmentResult]; [error?] is optional. *)
Record AdjustmentResult : Set := mkResult {
  discount : Z;
  isValid : bool;
  adjustedSubtotal : Z;
  taxAmount : Z;
  finalTotal : Z;
  error : option string
}.

(** ** The JavaScript [Math] functions used by the source *)

Module Math.

Definition floor (x : Q) : Z := Qfloor x.

Definition ceil (x : Q) : Z := Qceiling x.

(** [Math.round] rounds to the nearest integer, a half towards
    plus infinity. *)
Definition round (x : Q) : Z := Qfloor (x + (1 # 2)).

Definition abs (z : Z) : Z := Z.abs z.

End Math.

(** Comparisons on the rate, as booleans. *)
Definition Qlt_bool (x y : Q) : bool := negb (Qle_bool y x).

(** Template literals print a number in decimal. *)
Definition string_of_Z (z : Z) : string :=
  NilZero.string_of_int (Z.to_int z).

(** ** calculate.ts: the tax primitive *)

Definition applyTax (amount : Z) (taxRate : Q) (roundMode : RoundMode) : Z :=
  let taxAmount := (inject_Z amount * taxRate)%Q in
  match roundMode with
  | floor => Math.floor taxAmount
  | ceil => Math.ceil taxAmount
  | round => Math.round taxAmount
  end.

(** ** Probes

    The specification counts the calls of [applyTax] a search makes
    (its probes).  To be able to speak about them, the embedding threads a
    log through the code: a computation of type [Probing A] takes the
    amounts [applyTax] has been called on so far (latest first), and
    returns its value with the extended log. *)

Definition Probing (A : Type) : Type := list Z -> A * list Z.

Definition ret {A : Type} (a : A) : Probing A := fun log => (a, log).

Definition bind {A B : Type} (m : Probing A) (k : A -> Probing B) : Probing B :=
  fun log => let (a, log') := m log in k a log'.

Notation "x <- m ;; k" := (bind m (fun x => k))
  (at level 61, m at next level, right associativity).

(** A call of [applyTax]. *)
Definition applyTaxM (amount : Z) (taxRate : Q) (roundMode : RoundMode)
  : Probing Z :=
  fun log => (applyTax amount taxRate roundMode, amount :: log).

(** The indices [lo, lo + 1, ..., hi] of a counted [for] loop. *)
Definition zrange (lo hi : Z) : list Z :=
  map (fun k => lo + Z.of_nat k) (seq 0 (Z.to_nat (hi - lo + 1))).

(** What one round of a loop body does: leave the function with a result,
    or go on to the next round with the updated variables. *)
Inductive Step (R V : Type) : Type :=
| Return (r : R)
| Next (v : V).
Arguments Return {R V} r.
Arguments Next {R V} v.

(** [`Could not find exact adjustment. Closest total: ${finalTotal},
    target: ${targetTotal}`] *)
Definition notFoundMessage (finalTotal targetTotal : Z) : string :=
  ("Could not find exact adjustment. Closest total: " ++ string_of_Z finalTotal
   ++ ", target: " ++ string_of_Z targetTotal)%string.

(** [const { ..., roundMode = 'floor' } = params] *)
Definition roundModeOrDefault (m : option RoundMode) : RoundMode :=
  match m with
  | Some roundMode => roundMode
  | None => floor
  end.

(** ** calculate.ts: [calculateAdjustment], binary search *)

Module Bisection.

(** The [let] variables of the search. *)
Record Vars : Set := mkVars {
  minDiscount : Z;
  maxDiscount : Z;
  bestDiscount : Z;
  bestDifference : Z
}.

Section Search.

Variables (subtotal targetTotal : Z) (taxRate : Q) (roundMode : RoundMode).

(** [const calculateTotal = (discount) => ...] *)
Definition calculateTotal (discount : Z) : Probing Z :=
  let adjustedSub := subtotal - discount in
  if adjustedSub <? 0 then ret (-1)
  else
    tax <- applyTaxM adjustedSub taxRate roundMode ;;
    ret (adjustedSub + tax).

(** [if (difference < bestDifference) { bestDifference = difference;
    bestDiscount = ... }], which both loops repeat. *)
Definition track (v : Vars) (candidate difference : Z) : Vars :=
  if difference <? bestDifference v
  then {| minDiscount := minDiscount v;
          maxDiscount := maxDiscount v;
          bestDiscount := candidate;
          bestDifference := difference |}
  else v.

(** The [return] of an exact match, which both loops repeat: the tax is
    computed once more for the outcome. *)
Definition exactMatch (discount : Z) : Probing AdjustmentResult :=
  let adjustedSubtotal := subtotal - discount in
  taxAmount <- applyTaxM adjustedSubtotal taxRate roundMode ;;
  ret {| discount := discount;
         isValid := true;
         adjustedSubtotal := adjustedSubtotal;
         taxAmount := taxAmount;
         finalTotal := targetTotal;
         error := None |}.

(** The body of [while (maxDiscount - minDiscount > 1)]. *)
Definition whileBody (v : Vars) : Probing (Step AdjustmentResult Vars) :=
  let midDiscount :=
    Math.floor (inject_Z (minDiscount v + maxDiscount v) / inject_Z 2)%Q in
  midTotal <- calculateTotal midDiscount ;;
  if midTotal =? -1 then
    ret (Next {| minDiscount := minDiscount v;
                 maxDiscount := midDiscount - 1;
                 bestDiscount := bestDiscount v;
                 bestDifference := bestDifference v |})
  else if midTotal =? targetTotal then
    r <- exactMatch midDiscount ;;
    ret (Return r)
  else
    let difference := Math.abs (midTotal - targetTotal) in
    let v := track v midDiscount difference in
    if midTotal >? targetTotal then
      ret (Next {| minDiscount := midDiscount + 1;
                   maxDiscount := maxDiscount v;
                   bestDiscount := bestDiscount v;
                   bestDifference := bestDifference v |})
    else
      ret (Next {| minDiscount := minDiscount v;
                   maxDiscount := midDiscount - 1;
                   bestDiscount := bestDiscount v;
                   bestDifference := bestDifference v |}).

(** The loop terminates because the interval shrinks in every round. *)
Definition width (v : Vars) : nat :=
  Z.to_nat (maxDiscount v - minDiscount v).

(** [while (maxDiscount - minDiscount > 1) { ... }] *)
Equations? while (v : Vars) (log : list Z)
  : Step AdjustmentResult Vars * list Z by wf (width v) lt :=
  while v log with inspect (maxDiscount v - minDiscount v >? 1) := {
    | exist _ false _ => (Next v, log)
    | exist _ true Hc with inspect (whileBody v log) := {
        | exist _ (Return r, log') _ => (Return r, log')
        | exist _ (Next v', log') Hb => while v' log' } }.
Proof.
  clear while. apply Z.gtb_lt in Hc.
  unfold whileBody, Math.floor in Hb.
  rewrite <- Zdiv_Qdiv in Hb.
  assert (Hm : minDiscount v < (minDiscount v + maxDiscount v) / 2
               < maxDiscount v)
    by (Z.div_mod_to_equations; lia).
  unfold bind, ret, track, width in *.
  destruct (calculateTotal _ log) as [midTotal log1].
  destruct (midTotal =? -1).
  - inversion Hb; subst; simpl; lia.
  - destruct (midTotal =? targetTotal).
    + destruct (exactMatch _ log1); discriminate.
    + destruct (_ <? bestDifference v), (midTotal >? targetTotal);
        inversion Hb; subst; simpl; lia.
Qed.

(** The body of [for (let discount = minDiscount; ...; discount++)]. *)
Definition forBody (v : Vars) (discount : Z)
  : Probing (Step AdjustmentResult Vars) :=
  total <- calculateTotal discount ;;
  if total =? -1 then ret (Next v)
  else if total =? targetTotal then
    r <- exactMatch discount ;;
    ret (Return r)
  else
    let difference := Math.abs (total - targetTotal) in
    ret (Next (track v discount difference)).

(** [for (let discount = minDiscount; discount <= maxDiscount; discount++)],
    on the list of the values [discount] takes. *)
Fixpoint for_ (discounts : list Z) (v : Vars)
  : Probing (Step AdjustmentResult Vars) :=
  match discounts with
  | [] => ret (Next v)
  | discount :: rest =>
      s <- forBody v discount ;;
      match s with
      | Return r => ret (Return r)
      | Next v' => for_ rest v'
      end
  end.

(** [// Return best match found] *)
Definition bestMatch (v : Vars) : Probing AdjustmentResult :=
  let adjustedSubtotal := subtotal - bestDiscount v in
  taxAmount <- applyTaxM adjustedSubtotal taxRate roundMode ;;
  let finalTotal := adjustedSubtotal + taxAmount in
  ret {| discount := bestDiscount v;
         isValid := finalTotal =? targetTotal;
         adjustedSubtotal := adjustedSubtotal;
         taxAmount := taxAmount;
         finalTotal := finalTotal;
         error := if negb (finalTotal =? targetTotal)
                  then Some (notFoundMessage finalTotal targetTotal)
                  else None |}.

(** The function after the destructuring of its argument. *)
Definition search : Probing AdjustmentResult :=
  if subtotal <? 0 then
    ret {| discount := 0;
           isValid := false;
           adjustedSubtotal := subtotal;
           taxAmount := 0;
           finalTotal := subtotal;
           error := Some "Subtotal cannot be negative"%string |}
  else if Qlt_bool taxRate 0 || Qlt_bool 1 taxRate then
    ret {| discount := 0;
           isValid := false;
           adjustedSubtotal := subtotal;
           taxAmount := 0;
           finalTotal := subtotal;
           error := Some "Tax rate must be between 0 and 1"%string |}
  else
    currentTax <- applyTaxM subtotal taxRate roundMode ;;
    let currentTotal := subtotal + currentTax in
    if currentTotal =? targetTotal then
      ret {| discount := 0;
             isValid := true;
             adjustedSubtotal := subtotal;
             taxAmount := currentTax;
             finalTotal := currentTotal;
             error := None |}
    else
      let v := {| minDiscount := - subtotal;
                  maxDiscount := subtotal;
                  bestDiscount := 0;
                  bestDifference := Math.abs (currentTotal - targetTotal) |} in
      s <- while v ;;
      match s with
      | Return r => ret r
      | Next v =>
          s <- for_ (zrange (minDiscount v) (maxDiscount v)) v ;;
          match s with
          | Return r => ret r
          | Next v => bestMatch v
          end
      end.

End Search.

(** [export function calculateAdjustment(params)], on the empty log. *)
Definition calculateAdjustmentM (params : AdjustmentParams)
  : AdjustmentResult * list Z :=
  search (subtotal params) (targetTotal params) (taxRate params)
         (roundModeOrDefault (roundMode params)) [].

Definition calculateAdjustment (params : AdjustmentParams) : AdjustmentResult :=
  fst (calculateAdjustmentM params).

(** The amounts [applyTax] was called on, latest first. *)
Definition probes (params : AdjustmentParams) : list Z :=
  snd (calculateAdjustmentM params).

End Bisection.

(** ** calculate.ts: [calculateAdjustment], scan around an estimate *)

Module Estimate.

(** The [let] variables of the second loop. *)
Record Vars : Set := mkVars {
  bestDiscount : Z;
  bestDifference : Z
}.

Section Search.

Variables (subtotal targetTotal : Z) (taxRate : Q) (roundMode : RoundMode).

(** The body of the first [for (let i = -searchRadius; ...; i++)]. *)
Definition exactBody (initialEstimate : Z) (i : Z)
  : Probing (Step AdjustmentResult unit) :=
  let testDiscount := initialEstimate + i in
  let testSubtotal := subtotal - testDiscount in
  if testSubtotal <? 0 then ret (Next tt)
  else
    testTax <- applyTaxM testSubtotal taxRate roundMode ;;
    let testTotal := testSubtotal + testTax in
    if testTotal =? targetTotal then
      ret (Return {| discount := testDiscount;
                     isValid := true;
                     adjustedSubtotal := testSubtotal;
                     taxAmount := testTax;
                     finalTotal := testTotal;
                     error := None |})
    else ret (Next tt).

Fixpoint exactFor (initialEstimate : Z) (indices : list Z)
  : Probing (Step AdjustmentResult unit) :=
  match indices with
  | [] => ret (Next tt)
  | i :: rest =>
      s <- exactBody initialEstimate i ;;
      match s with
      | Return r => ret (Return r)
      | Next _ => exactFor initialEstimate rest
      end
  end.

(** The body of the second [for (let i = -searchRadius; ...; i++)]. *)
Definition closestBody (initialEstimate : Z) (v : Vars) (i : Z)
  : Probing Vars :=
  let testDiscount := initialEstimate + i in
  let testSubtotal := subtotal - testDiscount in
  if testSubtotal <? 0 then ret v
  else
    testTax <- applyTaxM testSubtotal taxRate roundMode ;;
    let testTotal := testSubtotal + testTax in
    let difference := Math.abs (testTotal - targetTotal) in
    if difference <? bestDifference v
    then ret {| bestDiscount := testDiscount;
                bestDifference := difference |}
    else ret v.

Fixpoint closestFor (initialEstimate : Z) (indices : list Z) (v : Vars)
  : Probing Vars :=
  match indices with
  | [] => ret v
  | i :: rest =>
      v' <- closestBody initialEstimate v i ;;
      closestFor initialEstimate rest v'
  end.

Definition bestMatch (v : Vars) : Probing AdjustmentResult :=
  let adjustedSubtotal := subtotal - bestDiscount v in
  taxAmount <- applyTaxM adjustedSubtotal taxRate roundMode ;;
  let finalTotal := adjustedSubtotal + taxAmount in
  ret {| discount := bestDiscount v;
         isValid := finalTotal =? targetTotal;
         adjustedSubtotal := adjustedSubtotal;
         taxAmount := taxAmount;
         finalTotal := finalTotal;
         error := if negb (finalTotal =? targetTotal)
                  then Some (notFoundMessage finalTotal targetTotal)
                  else None |}.

(** The function after the destructuring of its argument. *)
Definition search : Probing AdjustmentResult :=
  if subtotal <? 0 then
    ret {| discount := 0;
           isValid := false;
           adjustedSubtotal := subtotal;
           taxAmount := 0;
           finalTotal := subtotal;
           error := Some "Subtotal cannot be negative"%string |}
  else if Qlt_bool taxRate 0 || Qlt_bool 1 taxRate then
    ret {| discount := 0;
           isValid := false;
           adjustedSubtotal := subtotal;
           taxAmount := 0;
           finalTotal := subtotal;
           error := Some "Tax rate must be between 0 and 1"%string |}
  else
    currentTax <- applyTaxM subtotal taxRate roundMode ;;
    let currentTotal := subtotal + currentTax in
    if currentTotal =? targetTotal then
      ret {| discount := 0;
             isValid := true;
             adjustedSubtotal := subtotal;
             taxAmount := currentTax;
             finalTotal := currentTotal;
             error := None |}
    else
      let totalDifference := currentTotal - targetTotal in
      let initialEstimate :=
        Math.floor (inject_Z totalDifference / (1 + taxRate))%Q in
      let searchRadius :=
        Math.abs (Math.ceil (inject_Z totalDifference)) + 100 in
      s <- exactFor initialEstimate (zrange (- searchRadius) searchRadius) ;;
      match s with
      | Return r => ret r
      | Next _ =>
          let v := {| bestDiscount := 0;
                      bestDifference :=
                        Math.abs (currentTotal - targetTotal) |} in
          v <- closestFor initialEstimate
                 (zrange (- searchRadius) searchRadius) v ;;
          bestMatch v
      end.

End Search.

Definition calculateAdjustmentM (params : AdjustmentParams)
  : AdjustmentResult * list Z :=
  search (subtotal params) (targetTotal params) (taxRate params)
         (roundModeOrDefault (roundMode params)) [].

Definition calculateAdjustment (params : AdjustmentParams) : AdjustmentResult :=
  fst (calculateAdjustmentM params).

End Estimate.

(** ** packages/stripe: the part of the Stripe SDK the adjuster uses *)

Module Stripe.

(** [invoice.customer]: an id, an expanded customer object, or [null]. *)
Inductive Customer : Set :=
| CustomerId (id : string)
| CustomerObject (id : string)
| CustomerNull.

(** [Record<string, string>]: the properties of an object, in order. *)
Definition Metadata : Set := list (string * string).

(** [object[key]] *)
Fixpoint get (key : string) (object : Metadata) : option string :=
  match object with
  | [] => None
  | (k, v) :: rest => if String.eqb key k then Some v else get key rest
  end.

(** [object[key] = value]: an existing property keeps its place. *)
Fixpoint set (key value : string) (object : Metadata) : Metadata :=
  match object with
  | [] => [(key, value)]
  | (k, v) :: rest =>
      if String.eqb key k then (key, value) :: rest
      else (k, v) :: set key value rest
  end.

(** [Stripe.Invoice], the fields the adjuster reads; [null] is [None]. *)
Module Invoice.
Record t : Set := mk {
  status : option string;
  subtotal : option Z;
  customer : Customer;
  currency : string
}.
End Invoice.

(** [Stripe.InvoiceItemCreateParams], the fields the adjuster passes. *)
Module InvoiceItemCreateParams.
Record t : Set := mk {
  invoice : string;
  customer : Customer;
  amount : Z;
  currency : string;
  description : string;
  metadata : Metadata
}.
End InvoiceItemCreateParams.

(** A settled promise. *)
Inductive Settled (A : Type) : Type :=
| Resolved (a : A)
| Rejected (reason : string).
Arguments Resolved {A} a.
Arguments Rejected {A} reason.

(** The Stripe client, by the answers of its two methods (as the mocks of
    the test suite give them); the created invoice item is opaque. *)
Record Client (InvoiceItem : Type) : Type := mkClient {
  invoices_retrieve : string -> Settled Invoice.t;
  invoiceItems_create : InvoiceItemCreateParams.t -> Settled InvoiceItem
}.
Arguments invoices_retrieve {InvoiceItem} _ _.
Arguments invoiceItems_create {InvoiceItem} _ _.

(** A request sent to Stripe. *)
Inductive Call : Set :=
| Retrieve (id : string)
| Create (params : InvoiceItemCreateParams.t).

End Stripe.

(** ** packages/stripe: asynchronous code

    An [async] computation takes the requests sent to Stripe so far, in
    order, and returns the settled promise with the extended list. *)

Definition Async (A : Type) : Type :=
  list Stripe.Call -> Stripe.Settled A * list Stripe.Call.

(** [return a] *)
Definition resolve {A : Type} (a : A) : Async A :=
  fun calls => (Stripe.Resolved a, calls).

(** [throw new Error(message)] *)
Definition throw {A : Type} (message : string) : Async A :=
  fun calls => (Stripe.Rejected message, calls).

(** [const x = await m; k] *)
Definition await {A B : Type} (m : Async A) (k : A -> Async B) : Async B :=
  fun calls =>
    match m calls with
    | (Stripe.Resolved a, calls') => k a calls'
    | (Stripe.Rejected reason, calls') => (Stripe.Rejected reason, calls')
    end.

Notation "'await!' x <- m ;; k" := (await m (fun x => k))
  (at level 61, x name, m at next level, right associativity).

(** [stripe.invoices.retrieve(id)] *)
Definition retrieveInvoice {InvoiceItem : Type}
  (stripe : Stripe.Client InvoiceItem) (id : string)
  : Async Stripe.Invoice.t :=
  fun calls =>
    (Stripe.invoices_retrieve stripe id, (calls ++ [Stripe.Retrieve id])%list).

(** [stripe.invoiceItems.create(params)] *)
Definition createInvoiceItem {InvoiceItem : Type}
  (stripe : Stripe.Client InvoiceItem)
  (params : Stripe.InvoiceItemCreateParams.t) : Async InvoiceItem :=
  fun calls =>
    (Stripe.invoiceItems_create stripe params,
     (calls ++ [Stripe.Create params])%list).

(** ** packages/stripe: types.ts *)

(** [interface StripeAdjustmentOptions]; the fields with [?] are optional. *)
Module StripeAdjustmentOptions.
Record t : Set := mk {
  invoiceId : string;
  targetTotal : Z;
  taxRate : Q;
  roundMode : option RoundMode;
  description : option string;
  metadata : option Stripe.Metadata
}.
End StripeAdjustmentOptions.

(** [interface StripeAdjustmentResult] *)
Module StripeAdjustmentResult.
Record t (InvoiceItem : Type) : Type := mk {
  invoiceItem : InvoiceItem;
  discount : Z;
  adjustedSubtotal : Z;
  taxAmount : Z;
  finalTotal : Z
}.
Arguments mk {InvoiceItem} _ _ _ _ _.
Arguments invoiceItem {InvoiceItem} _.
Arguments discount {InvoiceItem} _.
Arguments adjustedSubtotal {InvoiceItem} _.
Arguments taxAmount {InvoiceItem} _.
Arguments finalTotal {InvoiceItem} _.
End StripeAdjustmentResult.

(** ** packages/stripe: adjuster.ts *)

(** [`${invoice.status}`] *)
Definition statusText (status : option string) : string :=
  match status with
  | Some s => s
  | None => "null"
  end.

Definition notDraftMessage (invoiceId : string) (status : option string)
  : string :=
  ("Invoice " ++ invoiceId ++ " is not in draft state. Current status: "
   ++ statusText status ++ ". "
   ++ "Tax adjustments can only be applied to draft invoices.")%string.

Definition zeroSubtotalMessage (invoiceId : string) : string :=
  ("Invoice " ++ invoiceId
   ++ " has zero subtotal. Cannot calculate adjustment.")%string.

Definition invalidAdjustmentMessage (error : option string) : string :=
  ("Failed to calculate valid adjustment: "
   ++ match error with
      | Some e => e
      | None => "Unknown error"
      end)%string.

(** [invoice.status !== 'draft'] *)
Definition notDraft (status : option string) : bool :=
  match status with
  | Some s => negb (String.eqb s "draft")
  | None => true
  end.

(** The metadata of the adjustment line item: the caller's properties,
    then the four of the adjuster. *)
Definition adjustmentMetadata (metadata : option Stripe.Metadata)
  (subtotal targetTotal discount : Z) : Stripe.Metadata :=
  let object :=
    match metadata with
    | Some properties => properties
    | None => []
    end in
  Stripe.set "calculated_discount" (string_of_Z discount)
    (Stripe.set "target_total" (string_of_Z targetTotal)
       (Stripe.set "original_subtotal" (string_of_Z subtotal)
          (Stripe.set "tax_fitter_adjustment" "true" object))).

Module TaxFitter.

Section Adjuster.

Context {InvoiceItem : Type}.

(** [calculateAdjustment] of [@tax-fitter/core]. *)
Variable calculateAdjustment : AdjustmentParams -> AdjustmentResult.

(** [constructor(private stripe: Stripe)] *)
Variable stripe : Stripe.Client InvoiceItem.

(** [async applyAdjustment(options)] *)
Definition applyAdjustment (options : StripeAdjustmentOptions.t)
  : Async (StripeAdjustmentResult.t InvoiceItem) :=
  let invoiceId := StripeAdjustmentOptions.invoiceId options in
  let targetTotal := StripeAdjustmentOptions.targetTotal options in
  let taxRate := StripeAdjustmentOptions.taxRate options in
  let roundMode :=
    roundModeOrDefault (StripeAdjustmentOptions.roundMode options) in
  let description :=
    match StripeAdjustmentOptions.description options with
    | Some d => d
    | None => "Tax adjustment"%string
    end in
  let metadata := StripeAdjustmentOptions.metadata options in
  await! invoice <- retrieveInvoice stripe invoiceId ;;
  if notDraft (Stripe.Invoice.status invoice) then
    throw (notDraftMessage invoiceId (Stripe.Invoice.status invoice))
  else
    let subtotal :=
      match Stripe.Invoice.subtotal invoice with
      | Some n => n
      | None => 0
      end in
    if subtotal =? 0 then throw (zeroSubtotalMessage invoiceId)
    else
      let adjustmentResult :=
        calculateAdjustment
          (mkParams subtotal targetTotal taxRate (Some roundMode)) in
      if negb (isValid adjustmentResult) then
        throw (invalidAdjustmentMessage (error adjustmentResult))
      else
        await! invoiceItem <-
          createInvoiceItem stripe
            (Stripe.InvoiceItemCreateParams.mk
               invoiceId
               (Stripe.Invoice.customer invoice)
               (- discount adjustmentResult)
               (Stripe.Invoice.currency invoice)
               description
               (adjustmentMetadata metadata subtotal targetTotal
                  (discount adjustmentResult))) ;;
        resolve (StripeAdjustmentResult.mk
                   invoiceItem
                   (discount adjustmentResult)
                   (adjustedSubtotal adjustmentResult)
                   (taxAmount adjustmentResult)
                   (finalTotal adjustmentResult)).

End Adjuster.

End TaxFitter.

(** [export async function applyStripeAdjustment(stripe, options)] *)
Definition applyStripeAdjustment {InvoiceItem : Type}
  (calculateAdjustment : AdjustmentParams -> AdjustmentResult)
  (stripe : Stripe.Client InvoiceItem) (options : StripeAdjustmentOptions.t)
  : Async (StripeAdjustmentResult.t InvoiceItem) :=
  let fitter := TaxFitter.applyAdjustment calculateAdjustment stripe in
  fitter options.

(** ** The vocabulary of the specification *)

(** [total(d) = (subtotal - d) + applyTax(subtotal - d, taxRate, roundMode)] *)
Definition total (subtotal : Z) (taxRate : Q) (roundMode : RoundMode) (d : Z)
  : Z :=
  (subtotal - d) + applyTax (subtotal - d) taxRate roundMode.

(** The outcome of a validation failure: no discount, the subtotal echoed. *)
Definition validationFailure (subtotal : Z) (msg : string) : AdjustmentResult :=
  {| discount := 0;
     isValid := false;
     adjustedSubtotal := subtotal;
     taxAmount := 0;
     finalTotal := subtotal;
     error := Some msg |}.

(** A request passes validation. *)
Definition validRequest (params : AdjustmentParams) : Prop :=
  0 <= subtotal params /\ (0 <= taxRate params <= 1)%Q.

(** Requests of the test suite and of the worked examples. *)
Definition worked : AdjustmentParams :=
  mkParams 290000 315000 (1 # 10) (Some floor).

Definition discounted : AdjustmentParams :=
  mkParams 1000 1050 (1 # 10) (Some floor).

Definition outOfReach : AdjustmentParams :=
  mkParams 1000 3000 (1 # 10) (Some floor).

Definition rateOver100 : AdjustmentParams :=
  mkParams 1000 1100 (3 # 2) (Some floor).

Definition rateOver100AtTarget : AdjustmentParams :=
  mkParams 1000 1000 (3 # 2) (Some floor).

Definition negativeTarget : AdjustmentParams :=
  mkParams 1000 (-1) (1 # 10) (Some floor).

(** An outcome is consistent with the discount it reports, and no discount
    of the search space comes closer to the target. *)
Definition Closest (s t : Z) (rate : Q) (mode : RoundMode)
  (r : AdjustmentResult) : Prop :=
  - s <= discount r <= s /\
  adjustedSubtotal r = s - discount r /\
  taxAmount r = applyTax (adjustedSubtotal r) rate mode /\
  finalTotal r = adjustedSubtotal r + taxAmount r /\
  isValid r = (finalTotal r =? t) /\
  error r = (if isValid r then None
             else Some (notFoundMessage (finalTotal r) t)) /\
  forall d, - s <= d <= s ->
            Z.abs (finalTotal r - t) <= Z.abs (total s rate mode d - t).

(** An outcome is an exact match on a non-negative adjusted subtotal. *)
Definition ExactOutcome (s t : Z) (rate : Q) (mode : RoundMode)
  (r : AdjustmentResult) : Prop :=
  isValid r = true /\
  finalTotal r = t /\
  0 <= adjustedSubtotal r /\
  adjustedSubtotal r = s - discount r /\
  taxAmount r = applyTax (adjustedSubtotal r) rate mode /\
  finalTotal r = adjustedSubtotal r + taxAmount r /\
  error r = None.

(** The best candidate of [v] is at least as close to the target as every
    discount of the search space that satisfies [P]. *)
Definition Covers (s t : Z) (rate : Q) (mode : RoundMode)
  (v : Bisection.Vars) (P : Z -> Prop) : Prop :=
  - s <= Bisection.bestDiscount v <= s /\
  Bisection.bestDifference v
  = Z.abs (total s rate mode (Bisection.bestDiscount v) - t) /\
  forall d, - s <= d <= s -> P d ->
            Bisection.bestDifference v <= Z.abs (total s rate mode d - t).

(** The invariant of the [while] loop: the interval is not empty and lies
    in the search space, the totals left of it are above the target and
    those right of it below, each by at least the best difference. *)
Definition Inv (s t : Z) (rate : Q) (mode : RoundMode) (v : Bisection.Vars)
  : Prop :=
  (- s <= Bisection.minDiscount v
   /\ Bisection.minDiscount v <= Bisection.maxDiscount v
   /\ Bisection.maxDiscount v <= s) /\
  - s <= Bisection.bestDiscount v <= s /\
  Bisection.bestDifference v
  = Z.abs (total s rate mode (Bisection.bestDiscount v) - t) /\
  (forall d, - s <= d < Bisection.minDiscount v ->
             Bisection.bestDifference v <= total s rate mode d - t) /\
  (forall d, Bisection.maxDiscount v < d <= s ->
             Bisection.bestDifference v <= t - total s rate mode d).

(** [log'] extends [log] by at most [n] calls of [applyTax], each on an
    amount between zero and twice the subtotal. *)
Definition Extends (s : Z) (n : nat) (log log' : list Z) : Prop :=
  exists new,
    log' = (new ++ log)%list
    /\ (List.length new <= n)%nat
    /\ Forall (fun a => 0 <= a <= 2 * s) new.

(** A bound on the rounds the [while] loop still makes: the binary
    logarithm of the number of discounts in the interval. *)
Definition rounds (v : Bisection.Vars) : nat :=
  Z.to_nat (Z.log2 (Bisection.maxDiscount v - Bisection.minDiscount v + 1)).

(** An outcome is consistent with the discount it reports, on a
    non-negative adjusted subtotal. *)
Definition Consistent (s t : Z) (rate : Q) (mode : RoundMode)
  (r : AdjustmentResult) : Prop :=
  adjustedSubtotal r = s - discount r /\
  0 <= adjustedSubtotal r /\
  taxAmount r = applyTax (adjustedSubtotal r) rate mode /\
  finalTotal r = adjustedSubtotal r + taxAmount r /\
  isValid r = (finalTotal r =? t) /\
  error r = (if isValid r then None
             else Some (notFoundMessage (finalTotal r) t)).

(** The mocks of the adjuster's test suite: a draft invoice of subtotal
    290000, a client that answers with it and creates the item
    [ii_test123], and the options of the first test. *)
Definition draftInvoice : Stripe.Invoice.t :=
  Stripe.Invoice.mk (Some "draft"%string) (Some 290000)
                    (Stripe.CustomerId "cus_test123") "jpy".

Definition paidInvoice : Stripe.Invoice.t :=
  Stripe.Invoice.mk (Some "paid"%string) (Some 290000)
                    (Stripe.CustomerId "cus_test123") "jpy".

Definition mockStripe (invoice : Stripe.Invoice.t) : Stripe.Client string :=
  Stripe.mkClient string
    (fun _ => Stripe.Resolved invoice)
    (fun _ => Stripe.Resolved "ii_test123"%string).

Definition workedOptions : StripeAdjustmentOptions.t :=
  StripeAdjustmentOptions.mk "in_test123" 315000 (1 # 10) (Some floor)
                             None None.


Definition taggedOptions : StripeAdjustmentOptions.t :=
  StripeAdjustmentOptions.mk "in_test123" 315000 (1 # 10) (Some floor)
    (Some "Custom adjustment description"%string)
    (Some [("order_id", "order_123");
           ("tax_fitter_adjustment", "false")]%string).

Definition creditInvoice : Stripe.Invoice.t :=
  Stripe.Invoice.mk (Some "draft"%string) (Some (-500))
                    (Stripe.CustomerId "cus_test123") "jpy".

Definition taggedItem : Stripe.InvoiceItemCreateParams.t :=
  Stripe.InvoiceItemCreateParams.mk
    "in_test123" (Stripe.CustomerId "cus_test123") (-3636) "jpy"
    "Custom adjustment description"
    [("order_id", "order_123");
     ("tax_fitter_adjustment", "true");
     ("original_subtotal", "290000");
     ("target_total", "315000");
     ("calculated_discount", "3636")]%string.

(** * Properties *)

(** ** The embedding on the cases of the test suite *)

Example applyTax_floor_tests :
  applyTax 100 (1 # 10) floor = 10
  /\ applyTax 109 (1 # 10) floor = 10
  /\ applyTax 1001 (8 # 100) floor = 80.
Proof. repeat split; reflexivity. Qed.

Example applyTax_ceil_round_tests :
  applyTax 101 (1 # 10) ceil = 11
  /\ applyTax 104 (1 # 10) round = 10
  /\ applyTax 106 (1 # 10) round = 11.
Proof. repeat split; reflexivity. Qed.

Example already_at_target :
  Bisection.calculateAdjustmentM (mkParams 1000 1100 (1 # 10) None)
  = ({| discount := 0;
        isValid := true;
        adjustedSubtotal := 1000;
        taxAmount := 100;
        finalTotal := 1100;
        error := None |}, [1000]).
Proof. vm_compute. reflexivity. Qed.

Example surcharge_needed :
  Bisection.calculateAdjustment (mkParams 10000 12100 (1 # 10) (Some floor))
  = {| discount := -1000;
       isValid := true;
       adjustedSubtotal := 11000;
       taxAmount := 1100;
       finalTotal := 12100;
       error := None |}.
Proof. vm_compute. reflexivity. Qed.

Example total_skipped_by_rounding :
  Bisection.calculateAdjustment (mkParams 1000 1099 (1 # 10) (Some floor))
  = {| discount := 0;
       isValid := false;
       adjustedSubtotal := 1000;
       taxAmount := 100;
       finalTotal := 1100;
       error := Some "Could not find exact adjustment. Closest total: 1100, target: 1099"%string |}.
Proof. vm_compute. reflexivity. Qed.

Example probes_of_worked :
  Bisection.probes worked
  = [286364; 286364; 286373; 286355; 286390; 286461; 286319; 286036;
     286602; 287735; 285469; 280938; 271875; 253750; 217500; 145000;
     290000; 290000].
Proof. vm_compute. reflexivity. Qed.

Example estimate_on_worked :
  Estimate.calculateAdjustment worked = Bisection.calculateAdjustment worked.
Proof. vm_compute. reflexivity. Qed.

(** ** The tax primitive *)

Lemma applyTax_mono (rate : Q) (mode : RoundMode) (a b : Z) :
  (0 <= rate)%Q -> a <= b ->
  applyTax a rate mode <= applyTax b rate mode.
Proof.
  intros Hr Hab.
  assert (Hq : (inject_Z a * rate <= inject_Z b * rate)%Q).
  { apply Qmult_le_compat_r; [rewrite <- Zle_Qle; exact Hab | exact Hr]. }
  unfold applyTax; destruct mode; cbv zeta;
    unfold Math.floor, Math.ceil, Math.round.
  - apply Qfloor_resp_le, Hq.
  - apply Qceiling_resp_le, Hq.
  - apply Qfloor_resp_le. apply Qplus_le_compat; [exact Hq | apply Qle_refl].
Qed.

Lemma applyTax_nonneg (rate : Q) (mode : RoundMode) (a : Z) :
  (0 <= rate)%Q -> 0 <= a -> 0 <= applyTax a rate mode.
Proof.
  intros Hr Ha.
  assert (Hq : (0 <= inject_Z a * rate)%Q).
  { apply Qmult_le_0_compat; [change 0%Q with (inject_Z 0);
                              rewrite <- Zle_Qle; exact Ha | exact Hr]. }
  unfold applyTax; destruct mode; cbv zeta;
    unfold Math.floor, Math.ceil, Math.round.
  - change 0 with (Qfloor 0). apply Qfloor_resp_le, Hq.
  - change 0 with (Qceiling 0). apply Qceiling_resp_le, Hq.
  - change 0 with (Qfloor 0). apply Qfloor_resp_le.
    apply Qle_trans with (inject_Z a * rate)%Q; [exact Hq |].
    rewrite <- (Qplus_0_r (inject_Z a * rate)) at 1.
    apply Qplus_le_compat; [apply Qle_refl | discriminate].
Qed.

(** ** The binary search *)

(** The [while] loop satisfies the equation of the loop it embeds. *)
Lemma while_unfold s t rate mode (v : Bisection.Vars) (log : list Z) :
  Bisection.while s t rate mode v log =
  if Bisection.maxDiscount v - Bisection.minDiscount v >? 1 then
    match Bisection.whileBody s t rate mode v log with
    | (Return r, log') => (Return r, log')
    | (Next v', log') => Bisection.while s t rate mode v' log'
    end
  else (Next v, log).
Proof.
  funelim (Bisection.while s t rate mode v log).
  all: match goal with e : (_ >? 1) = _ |- _ => rewrite e end;
    try reflexivity.
  all: match goal with
       | e : Bisection.whileBody _ _ _ _ _ _ = _ |- _ => rewrite e
       end; reflexivity.
Qed.


Section BisectionCorrect.

Variables (s t : Z) (rate : Q) (mode : RoundMode).
Hypothesis Hrate : (0 <= rate)%Q.

Local Abbreviation total' := (total s rate mode).

Lemma total_antitone d1 d2 : d1 <= d2 -> total' d2 <= total' d1.
Proof.
  intros H. unfold total.
  pose proof (applyTax_mono rate mode (s - d2) (s - d1) Hrate). lia.
Qed.

Lemma total_nonneg d : d <= s -> 0 <= total' d.
Proof.
  intros H. unfold total.
  pose proof (applyTax_nonneg rate mode (s - d) Hrate). lia.
Qed.

Lemma calculateTotal_in d log :
  d <= s ->
  Bisection.calculateTotal s rate mode d log = (total' d, (s - d) :: log).
Proof.
  intros H. unfold Bisection.calculateTotal, bind, ret, applyTaxM, total.
  destruct (s - d <? 0) eqn:E; [apply Z.ltb_lt in E; lia | reflexivity].
Qed.

Lemma exactMatch_Closest d log :
  - s <= d <= s -> total' d = t ->
  Closest s t rate mode (fst (Bisection.exactMatch s t rate mode d log)).
Proof.
  intros Hd Ht. unfold Bisection.exactMatch, bind, ret, applyTaxM, Closest.
  simpl. rewrite Z.eqb_refl. unfold total in Ht.
  repeat split; lia.
Qed.

Lemma whileBody_Inv v log :
  Inv s t rate mode v ->
  (Bisection.maxDiscount v - Bisection.minDiscount v >? 1) = true ->
  match Bisection.whileBody s t rate mode v log with
  | (Return r, _) => Closest s t rate mode r
  | (Next v', _) => Inv s t rate mode v'
  end.
Proof.
  intros (Hrange & Hbest & Hdiff & HL & HR) Hc. apply Z.gtb_lt in Hc.
  unfold Bisection.whileBody, Math.floor. rewrite <- Zdiv_Qdiv.
  set (mid := (Bisection.minDiscount v + Bisection.maxDiscount v) / 2).
  assert (Hmid : Bisection.minDiscount v < mid < Bisection.maxDiscount v)
    by (subst mid; Z.div_mod_to_equations; lia).
  unfold bind at 1. rewrite calculateTotal_in by lia.
  pose proof (total_nonneg mid ltac:(lia)) as Hnn.
  destruct (total' mid =? -1) eqn:E1; [apply Z.eqb_eq in E1; lia |].
  destruct (total' mid =? t) eqn:E2.
  - apply Z.eqb_eq in E2. unfold bind.
    pose proof (exactMatch_Closest mid ((s - mid) :: log) ltac:(lia) E2) as HC.
    destruct (Bisection.exactMatch s t rate mode mid _); exact HC.
  - apply Z.eqb_neq in E2. unfold Bisection.track, Math.abs.
    destruct (Z.abs (total' mid - t) <? Bisection.bestDifference v) eqn:E3;
      [apply Z.ltb_lt in E3 | apply Z.ltb_ge in E3];
      (destruct (total' mid >? t) eqn:E4;
       [apply Z.gtb_lt in E4 | rewrite Z.gtb_ltb in E4; apply Z.ltb_ge in E4]);
      unfold ret, Inv; simpl; (repeat split; try lia);
      intros d Hd;
      try (specialize (HL d)); try (specialize (HR d));
      try (pose proof (total_antitone d mid));
      try (pose proof (total_antitone mid d)); lia.
Qed.

Lemma while_Inv v log :
  Inv s t rate mode v ->
  match Bisection.while s t rate mode v log with
  | (Return r, _) => Closest s t rate mode r
  | (Next v', _) => Inv s t rate mode v'
  end.
Proof.
  remember (Bisection.width v) as n eqn:Hn.
  revert v log Hn.
  induction n as [n IH] using lt_wf_ind. intros v log Hn HI.
  rewrite while_unfold.
  destruct (Bisection.maxDiscount v - Bisection.minDiscount v >? 1) eqn:Hc;
    [| exact HI].
  pose proof (whileBody_Inv v log HI Hc) as Hb.
  destruct (Bisection.whileBody s t rate mode v log) as [[r | v'] log'] eqn:Eb;
    [exact Hb |].
  apply (IH (Bisection.width v')); [| reflexivity | exact Hb].
  subst n. apply Z.gtb_lt in Hc.
  destruct Hb as ((? & ? & ?) & _). destruct HI as ((? & ? & ?) & _).
  clear IH. revert Eb.
  unfold Bisection.whileBody, Math.floor. rewrite <- Zdiv_Qdiv.
  set (mid := (Bisection.minDiscount v + Bisection.maxDiscount v) / 2).
  assert (Hmid : Bisection.minDiscount v < mid < Bisection.maxDiscount v)
    by (subst mid; Z.div_mod_to_equations; lia).
  unfold bind, ret, Bisection.track, Bisection.width.
  destruct (Bisection.calculateTotal _ _ _ _ _) as [midTotal log1].
  destruct (midTotal =? -1).
  - intros [= <- _]; simpl; lia.
  - destruct (midTotal =? t).
    + destruct (Bisection.exactMatch _ _ _ _ _ _); discriminate.
    + destruct (_ <? Bisection.bestDifference v), (midTotal >? t);
        intros [= <- _]; simpl; lia.
Qed.

Lemma Inv_Covers v :
  Inv s t rate mode v ->
  Covers s t rate mode v
    (fun d => d < Bisection.minDiscount v \/ Bisection.maxDiscount v < d).
Proof.
  intros (Hrange & Hbest & Hdiff & HL & HR).
  repeat split; try lia.
  intros d Hd [Hlt | Hgt];
    [specialize (HL d) | specialize (HR d)]; lia.
Qed.

Lemma forBody_Covers v d log P :
  - s <= d <= s ->
  Covers s t rate mode v P ->
  match Bisection.forBody s t rate mode v d log with
  | (Return r, _) => Closest s t rate mode r
  | (Next v', _) => Covers s t rate mode v' (fun d' => P d' \/ d' = d)
  end.
Proof.
  intros Hd (Hbest & Hdiff & HP).
  unfold Bisection.forBody. unfold bind at 1.
  rewrite calculateTotal_in by lia.
  pose proof (total_nonneg d ltac:(lia)) as Hnn.
  destruct (total' d =? -1) eqn:E1; [apply Z.eqb_eq in E1; lia |].
  destruct (total' d =? t) eqn:E2.
  - apply Z.eqb_eq in E2. unfold bind.
    pose proof (exactMatch_Closest d ((s - d) :: log) Hd E2) as HC.
    destruct (Bisection.exactMatch s t rate mode d _); exact HC.
  - unfold ret, Bisection.track, Math.abs, Covers.
    destruct (Z.abs (total' d - t) <? Bisection.bestDifference v) eqn:E3;
      [apply Z.ltb_lt in E3 | apply Z.ltb_ge in E3];
      simpl; (repeat split; try lia);
      intros d' Hd' [HPd | ->]; try (specialize (HP d' Hd' HPd)); lia.
Qed.

Lemma for_Covers ds : forall v log P,
  (forall d, In d ds -> - s <= d <= s) ->
  Covers s t rate mode v P ->
  match Bisection.for_ s t rate mode ds v log with
  | (Return r, _) => Closest s t rate mode r
  | (Next v', _) => Covers s t rate mode v' (fun d => P d \/ In d ds)
  end.
Proof.
  induction ds as [| d ds IH]; intros v log P Hds HC; simpl.
  - unfold ret. destruct HC as (Hbest & Hdiff & HP).
    repeat split; try lia. intros d Hd [HPd | []]. auto.
  - unfold bind.
    pose proof (forBody_Covers v d log P (Hds d (or_introl eq_refl)) HC) as Hb.
    destruct (Bisection.forBody s t rate mode v d log) as [[r | v'] log'];
      [exact Hb |].
    specialize (IH v' log' _ (fun d' H => Hds d' (or_intror H)) Hb).
    destruct (Bisection.for_ s t rate mode ds v' log') as [[r | v''] log''];
      [exact IH |].
    destruct IH as (Hbest & Hdiff & HP).
    repeat split; try lia.
    intros d' Hd' [HPd | [<- | Hin]]; apply HP; auto.
Qed.

Lemma bestMatch_Closest v log :
  Covers s t rate mode v (fun _ => True) ->
  Closest s t rate mode (fst (Bisection.bestMatch s t rate mode v log)).
Proof.
  intros (Hbest & Hdiff & HP).
  unfold Bisection.bestMatch, bind, ret, applyTaxM, Closest. simpl.
  repeat split; try lia.
  - destruct (_ =? t); reflexivity.
  - intros d Hd. specialize (HP d Hd I). unfold total in Hdiff. lia.
Qed.

End BisectionCorrect.

Lemma zrange_In (lo hi d : Z) : In d (zrange lo hi) <-> lo <= d <= hi.
Proof.
  unfold zrange. rewrite in_map_iff. split.
  - intros (k & <- & Hk). apply in_seq in Hk. lia.
  - intros H. exists (Z.to_nat (d - lo)). split; [lia |].
    apply in_seq. lia.
Qed.

Lemma validation_passes (s : Z) (rate : Q) :
  0 <= s -> (0 <= rate <= 1)%Q ->
  (s <? 0) = false /\ (Qlt_bool rate 0 || Qlt_bool 1 rate) = false.
Proof.
  intros Hs [H0 H1]. split; [apply Z.ltb_ge; exact Hs |].
  unfold Qlt_bool.
  apply Qle_bool_iff in H0, H1. rewrite H0, H1. reflexivity.
Qed.

(** Every outcome of a request that passes validation is consistent and
    closest to the target. *)
Lemma search_Closest (s t : Z) (rate : Q) (mode : RoundMode) :
  0 <= s -> (0 <= rate <= 1)%Q ->
  Closest s t rate mode (fst (Bisection.search s t rate mode [])).
Proof.
  intros Hs Hr. destruct (validation_passes s rate Hs Hr) as [V1 V2].
  destruct Hr as [Hr0 Hr1].
  unfold Bisection.search. rewrite V1, V2.
  unfold bind at 1, applyTaxM at 1.
  destruct (s + applyTax s rate mode =? t) eqn:E.
  - apply Z.eqb_eq in E. unfold ret, Closest. simpl.
    rewrite E, Z.eqb_refl. repeat split; lia.
  - unfold bind at 1.
    match goal with |- context [Bisection.while _ _ _ _ ?v0 ?l0] =>
      pose proof (while_Inv s t rate mode Hr0 v0 l0) as HW;
      destruct (Bisection.while s t rate mode v0 l0) as [[r | v] log]
    end.
    + apply HW. unfold Inv, Math.abs, total; simpl.
      replace (s - 0) with s by lia. repeat split; lia.
    + assert (HI : Inv s t rate mode v).
      { apply HW. unfold Inv, Math.abs, total; simpl.
        replace (s - 0) with s by lia. repeat split; lia. }
      clear HW. unfold bind.
      pose proof (for_Covers s t rate mode Hr0
                    (zrange (Bisection.minDiscount v) (Bisection.maxDiscount v))
                    v log _
                    ltac:(intros d Hd; apply zrange_In in Hd;
                          destruct HI as ((? & ? & ?) & _); lia)
                    (Inv_Covers s t rate mode v HI)) as HF.
      destruct (Bisection.for_ s t rate mode _ v log) as [[r | v'] log'];
        [exact HF |].
      apply bestMatch_Closest.
      destruct HF as (Hbest & Hdiff & HP). repeat split; try lia.
      intros d Hd _. apply HP; [exact Hd |]. rewrite zrange_In. lia.
Qed.

Lemma validation_fails_rate (s : Z) (rate : Q) :
  0 <= s -> ~ (0 <= rate <= 1)%Q ->
  (s <? 0) = false /\ (Qlt_bool rate 0 || Qlt_bool 1 rate) = true.
Proof.
  intros Hs Hn. split; [apply Z.ltb_ge; exact Hs |].
  unfold Qlt_bool.
  destruct (Qle_bool 0 rate) eqn:E0; [| reflexivity].
  destruct (Qle_bool rate 1) eqn:E1; [| reflexivity].
  exfalso. apply Hn. split; apply Qle_bool_iff; assumption.
Qed.

Lemma rate_range_dec (rate : Q) :
  {(0 <= rate <= 1)%Q} + {~ (0 <= rate <= 1)%Q}.
Proof.
  destruct (Qlt_le_dec rate 0) as [H0 | H0].
  - right. intros [H _]. exact (Qlt_not_le _ _ H0 H).
  - destruct (Qlt_le_dec 1 rate) as [H1 | H1].
    + right. intros [_ H]. exact (Qlt_not_le _ _ H1 H).
    + left. split; assumption.
Qed.

(** The three ways a call of the binary search ends. *)
Lemma bisection_cases (s t : Z) (rate : Q) (mode : RoundMode) :
  (s < 0 /\
   Bisection.search s t rate mode []
   = (validationFailure s "Subtotal cannot be negative", []))
  \/ (0 <= s /\ ~ (0 <= rate <= 1)%Q /\
      Bisection.search s t rate mode []
      = (validationFailure s "Tax rate must be between 0 and 1", []))
  \/ (0 <= s /\ (0 <= rate <= 1)%Q /\
      Closest s t rate mode (fst (Bisection.search s t rate mode []))).
Proof.
  destruct (Z.lt_ge_cases s 0) as [Hneg | Hs].
  - left. split; [exact Hneg |]. unfold Bisection.search.
    apply Z.ltb_lt in Hneg. rewrite Hneg. reflexivity.
  - right. destruct (rate_range_dec rate) as [Hr | Hr].
    + right. auto using search_Closest.
    + left. split; [exact Hs |]. split; [exact Hr |].
      destruct (validation_fails_rate s rate Hs Hr) as [V1 V2].
      unfold Bisection.search. rewrite V1, V2. reflexivity.
Qed.

Lemma Closest_valid_Exact (s t : Z) (rate : Q) (mode : RoundMode) r :
  Closest s t rate mode r -> isValid r = true ->
  ExactOutcome s t rate mode r.
Proof.
  intros (Hd & Ha & Htax & Hf & Hv & He & _) Hval.
  rewrite Hval in Hv, He. symmetry in Hv. apply Z.eqb_eq in Hv.
  unfold ExactOutcome. repeat split; try assumption; lia.
Qed.

(** ** The scan around an estimate *)

Section EstimateCorrect.

Variables (s t : Z) (rate : Q) (mode : RoundMode).
Hypothesis Hrate : (0 <= rate)%Q.

Local Abbreviation total' := (total s rate mode).

Lemma total_strict d1 d2 : d1 < d2 -> total' d2 < total' d1.
Proof.
  intros H. unfold total.
  pose proof (applyTax_mono rate mode (s - d2) (s - d1) Hrate). lia.
Qed.


Lemma exactBody_spec est i log :
  match Estimate.exactBody s t rate mode est i log with
  | (Return r, _) => ExactOutcome s t rate mode r
  | (Next _, _) => s - (est + i) < 0 \/ total' (est + i) <> t
  end.
Proof.
  unfold Estimate.exactBody.
  destruct (s - (est + i) <? 0) eqn:E1.
  - apply Z.ltb_lt in E1. unfold ret. left. exact E1.
  - apply Z.ltb_ge in E1. unfold bind, applyTaxM.
    destruct (_ =? t) eqn:E2; unfold ret.
    + apply Z.eqb_eq in E2. unfold ExactOutcome. simpl.
      repeat split; try assumption; reflexivity.
    + apply Z.eqb_neq in E2. right. exact E2.
Qed.

Lemma exactFor_spec est indices : forall log,
  match Estimate.exactFor s t rate mode est indices log with
  | (Return r, _) => ExactOutcome s t rate mode r
  | (Next _, _) =>
      forall i, In i indices -> s - (est + i) < 0 \/ total' (est + i) <> t
  end.
Proof.
  induction indices as [| i indices IH]; intros log; simpl.
  - unfold ret. intros i [].
  - unfold bind. pose proof (exactBody_spec est i log) as Hb.
    destruct (Estimate.exactBody s t rate mode est i log) as [[r | u] log'];
      [exact Hb |].
    specialize (IH log').
    destruct (Estimate.exactFor s t rate mode est indices log')
      as [[r | u'] log'']; [exact IH |].
    intros j [<- | Hj]; auto.
Qed.

Lemma closestFor_nonneg est indices : forall v log,
  0 <= s - Estimate.bestDiscount v ->
  0 <= s - Estimate.bestDiscount
           (fst (Estimate.closestFor s t rate mode est indices v log)).
Proof.
  induction indices as [| i indices IH]; intros v log Hv; simpl.
  - exact Hv.
  - unfold bind.
    destruct (Estimate.closestBody s t rate mode est v i log) as [v' log']
      eqn:Eb.
    apply IH. revert Eb. unfold Estimate.closestBody.
    destruct (s - (est + i) <? 0) eqn:E1.
    + unfold ret. intros [= <- _]. exact Hv.
    + apply Z.ltb_ge in E1. unfold bind, applyTaxM.
      destruct (_ <? Estimate.bestDifference v); unfold ret;
        intros [= <- _]; simpl; assumption.
Qed.


End EstimateCorrect.

Lemma estimate_validation (s t : Z) (rate : Q) (mode : RoundMode) :
  (s < 0 ->
   Estimate.search s t rate mode []
   = (validationFailure s "Subtotal cannot be negative", []))
  /\ (0 <= s -> ~ (0 <= rate <= 1)%Q ->
      Estimate.search s t rate mode []
      = (validationFailure s "Tax rate must be between 0 and 1", [])).
Proof.
  split.
  - intros Hneg. unfold Estimate.search.
    apply Z.ltb_lt in Hneg. rewrite Hneg. reflexivity.
  - intros Hs Hr. destruct (validation_fails_rate s rate Hs Hr) as [V1 V2].
    unfold Estimate.search. rewrite V1, V2. reflexivity.
Qed.

(** The estimate variant never reports a negative adjusted subtotal. *)
Lemma estimate_adjusted_nonneg (s t : Z) (rate : Q) (mode : RoundMode) :
  0 <= s -> (0 <= rate <= 1)%Q ->
  let r := fst (Estimate.search s t rate mode []) in
  0 <= adjustedSubtotal r /\ adjustedSubtotal r = s - discount r.
Proof.
  intros Hs Hr. destruct (validation_passes s rate Hs Hr) as [V1 V2].
  destruct Hr as [Hr0 Hr1]. cbv zeta.
  set (P := fun r => 0 <= adjustedSubtotal r
                      /\ adjustedSubtotal r = s - discount r).
  change (P (fst (Estimate.search s t rate mode []))).
  unfold Estimate.search. rewrite V1, V2.
  unfold bind at 1, applyTaxM at 1.
  destruct (s + applyTax s rate mode =? t) eqn:E.
  - unfold ret, P. simpl. lia.
  - unfold bind at 1.
    match goal with |- context [Estimate.exactFor _ _ _ _ ?e ?l ?g] =>
      pose proof (exactFor_spec s t rate mode e l g) as HX;
      destruct (Estimate.exactFor s t rate mode e l g) as [[r | u] log]
    end.
    + destruct HX as (_ & _ & Hn & Ha & _). unfold ret, P. simpl. auto.
    + clear HX. unfold bind.
      match goal with |- context [Estimate.closestFor _ _ _ _ ?e ?l ?v ?g] =>
        pose proof (closestFor_nonneg s t rate mode e l v g) as HC;
        destruct (Estimate.closestFor s t rate mode e l v g) as [v' log']
      end.
      simpl in HC. specialize (HC ltac:(lia)).
      unfold Estimate.bestMatch, bind, ret, applyTaxM, P. simpl. lia.
Qed.


(** * The properties of the specification *)

Local Abbreviation B := Bisection.calculateAdjustment.
Local Abbreviation E := Estimate.calculateAdjustment.

Lemma bisection_Closest (params : AdjustmentParams) :
  validRequest params ->
  Closest (subtotal params) (targetTotal params) (taxRate params)
          (roundModeOrDefault (roundMode params)) (B params).
Proof.
  intros [Hs Hr]. apply search_Closest; assumption.
Qed.

Lemma rate_outside (rate : Q) :
  (rate < 0 \/ 1 < rate)%Q -> ~ (0 <= rate <= 1)%Q.
Proof.
  intros [H | H] [H0 H1]; [exact (Qlt_not_le _ _ H H0) |
                           exact (Qlt_not_le _ _ H H1)].
Qed.






(** C3, as stated, fails on a validation failure whose echoed subtotal
    happens to equal the target: [subtotal = 1000], [targetTotal = 1000],
    [taxRate = 1.5] gives [finalTotal = targetTotal] with
    [isValid = false]. *)
Lemma C3_invalid_with_equal_total :
  ~ (isValid (Bisection.calculateAdjustment rateOver100AtTarget) = true
     <-> finalTotal (Bisection.calculateAdjustment rateOver100AtTarget)
         = targetTotal rateOver100AtTarget).
Proof.
  intros [_ H]. vm_compute in H. specialize (H eq_refl).
  discriminate H.
Qed.

(** C3, amended: for every request, [isValid = true] implies
    [finalTotal = targetTotal], and the [error] field is present if and
    only if [isValid] is false; for every request that passes validation,
    [isValid] is true if and only if [finalTotal = targetTotal]. *)
Theorem C3_isValid_and_error (params : AdjustmentParams) :
  let r := Bisection.calculateAdjustment params in
  (isValid r = true -> finalTotal r = targetTotal params)
  /\ (error r <> None <-> isValid r = false)
  /\ (0 <= subtotal params /\ (0 <= taxRate params <= 1)%Q ->
      (isValid r = true <-> finalTotal r = targetTotal params)).
Proof.
  cbv zeta.
  unfold Bisection.calculateAdjustment, Bisection.calculateAdjustmentM.
  set (s := subtotal params). set (t := targetTotal params).
  set (rate := taxRate params).
  set (mode := roundModeOrDefault (roundMode params)).
  destruct (bisection_cases s t rate mode)
    as [[Hneg HB] | [(Hs & Hr & HB) | (Hs & Hr & HC)]].
  - rewrite HB. simpl. split; [discriminate |].
    split; [split; [reflexivity | discriminate] |]. lia.
  - rewrite HB. simpl. split; [discriminate |].
    split; [split; [reflexivity | discriminate] |].
    intros [_ Hr']. destruct (Hr Hr').
  - destruct HC as (_ & _ & _ & _ & Hv & He & _).
    rewrite He, Hv.
    destruct (Z.eqb_spec (finalTotal (fst (Bisection.search s t rate mode [])))
                t) as [Heq | Hne].
    + split; [intros _; exact Heq |].
      split; [split; [intros H; destruct (H eq_refl) | discriminate] |].
      intros _. split; [intros _; exact Heq | reflexivity].
    + split; [discriminate |].
      split; [split; [reflexivity | discriminate] |].
      intros _. split; [discriminate | intros H; destruct (Hne H)].
Qed.



(** C5, as stated, fails for the scan around the estimate: on
    [subtotal = 1000], [targetTotal = 3000], [taxRate = 0.1], [floor] it
    returns the discount -1728, below [-subtotal]. *)
Lemma C5_estimate_leaves_interval :
  ~ (- subtotal outOfReach
     <= discount (Estimate.calculateAdjustment outOfReach)
     <= subtotal outOfReach).
Proof.
  vm_compute. intros [H _]. apply H. reflexivity.
Qed.

(** C5, amended: for every request that passes validation, the binary
    search returns a discount in [[-subtotal, +subtotal]], that is
    [0 <= adjustedSubtotal <= 2 * subtotal]; the scan around the estimate
    returns a discount that is at most [subtotal], that is
    [adjustedSubtotal >= 0], with no lower bound on the discount. *)
Theorem C5_discount_bounds (params : AdjustmentParams) :
  0 <= subtotal params -> (0 <= taxRate params <= 1)%Q ->
  (let r := Bisection.calculateAdjustment params in
   - subtotal params <= discount r <= subtotal params
   /\ adjustedSubtotal r = subtotal params - discount r
   /\ 0 <= adjustedSubtotal r <= 2 * subtotal params)
  /\ (let r := Estimate.calculateAdjustment params in
      discount r <= subtotal params
      /\ adjustedSubtotal r = subtotal params - discount r
      /\ 0 <= adjustedSubtotal r).
Proof.
  intros Hs Hr. cbv zeta. split.
  - destruct (bisection_Closest params (conj Hs Hr)) as (Hd & Ha & _).
    lia.
  - pose proof (estimate_adjusted_nonneg (subtotal params)
                  (targetTotal params) (taxRate params)
                  (roundModeOrDefault (roundMode params)) Hs Hr) as H.
    cbv zeta in H. unfold Estimate.calculateAdjustment,
      Estimate.calculateAdjustmentM. lia.
Qed.

Lemma C5_discount_bounds_witness :
  (0 <= subtotal outOfReach /\ (0 <= taxRate outOfReach <= 1)%Q)
  /\ - subtotal outOfReach
     <= discount (Bisection.calculateAdjustment outOfReach)
     <= subtotal outOfReach.
Proof.
  assert (Hs : 0 <= subtotal outOfReach) by (simpl; lia).
  assert (Hr : (0 <= taxRate outOfReach <= 1)%Q)
    by (split; unfold Qle; simpl; lia).
  split; [split; assumption |].
  apply (C5_discount_bounds outOfReach Hs Hr).
Defined.

(** C6. Arithmetic invariant of every outcome: for every request, the
    outcome of [calculateAdjustment] satisfies
    [finalTotal = adjustedSubtotal + taxAmount] and
    [adjustedSubtotal = subtotal - discount]; validation failures are
    included. *)
Theorem C6_outcome_arithmetic (params : AdjustmentParams) :
  let r := Bisection.calculateAdjustment params in
  finalTotal r = adjustedSubtotal r + taxAmount r
  /\ adjustedSubtotal r = subtotal params - discount r.
Proof.
  cbv zeta.
  unfold Bisection.calculateAdjustment, Bisection.calculateAdjustmentM.
  destruct (bisection_cases (subtotal params) (targetTotal params)
              (taxRate params) (roundModeOrDefault (roundMode params)))
    as [[_ HB] | [(_ & _ & HB) | (_ & _ & HC)]].
  - rewrite HB. simpl. lia.
  - rewrite HB. simpl. lia.
  - destruct HC as (_ & Ha & _ & Hf & _). split; assumption.
Qed.

(** C7. Fail-fast validation: a request with [subtotal < 0], and a request
    with [subtotal >= 0] and [taxRate] outside [[0, 1]], returns an invalid
    outcome with [discount = 0], [adjustedSubtotal = subtotal],
    [taxAmount = 0], [finalTotal = subtotal] and the error of its case,
    and [applyTax] has not been called (the log of probes is empty). *)
Theorem C7_validation_fails_fast (params : AdjustmentParams) :
  subtotal params < 0
  \/ (0 <= subtotal params
      /\ (taxRate params < 0 \/ 1 < taxRate params)%Q) ->
  Bisection.calculateAdjustment params
  = {| discount := 0;
       isValid := false;
       adjustedSubtotal := subtotal params;
       taxAmount := 0;
       finalTotal := subtotal params;
       error := Some (if subtotal params <? 0
                      then "Subtotal cannot be negative"%string
                      else "Tax rate must be between 0 and 1"%string) |}
  /\ Bisection.probes params = [].
Proof.
  unfold Bisection.calculateAdjustment, Bisection.probes,
    Bisection.calculateAdjustmentM.
  set (s := subtotal params). set (t := targetTotal params).
  set (rate := taxRate params).
  set (mode := roundModeOrDefault (roundMode params)).
  intros H.
  destruct (bisection_cases s t rate mode)
    as [[Hneg HB] | [(Hs & Hr & HB) | (Hs & Hr & HC)]].
  - rewrite HB. apply Z.ltb_lt in Hneg. rewrite Hneg. split; reflexivity.
  - rewrite HB. apply Z.ltb_ge in Hs. rewrite Hs. split; reflexivity.
  - exfalso. destruct H as [H | [_ H]]; [lia |].
    exact (rate_outside rate H Hr).
Qed.

Lemma C7_validation_fails_fast_witness :
  (0 <= subtotal rateOver100 /\ (1 < taxRate rateOver100)%Q)
  /\ Bisection.calculateAdjustment rateOver100
     = {| discount := 0;
          isValid := false;
          adjustedSubtotal := 1000;
          taxAmount := 0;
          finalTotal := 1000;
          error := Some "Tax rate must be between 0 and 1"%string |}
  /\ Bisection.probes rateOver100 = [].
Proof.
  assert (Hs : 0 <= subtotal rateOver100) by (simpl; lia).
  assert (Hr : (1 < taxRate rateOver100)%Q) by (unfold Qlt; simpl; lia).
  split; [split; assumption |].
  apply (C7_validation_fails_fast rateOver100).
  right. split; [exact Hs | right; exact Hr].
Defined.

(** C8. Worked exact-match example: on [subtotal = 290000],
    [targetTotal = 315000], [taxRate = 0.1], [roundMode = floor],
    [calculateAdjustment] returns [isValid = true], [finalTotal = 315000],
    [discount = 3636], [adjustedSubtotal = 286364], [taxAmount = 28636]. *)
Theorem C8_worked_example :
  Bisection.calculateAdjustment worked
  = {| discount := 3636;
       isValid := true;
       adjustedSubtotal := 286364;
       taxAmount := 28636;
       finalTotal := 315000;
       error := None |}.
Proof. vm_compute. reflexivity. Qed.

(** C9. Rounding-mode differentiation of the tax primitive:
    [applyTax 105 0.1 floor = 10], [applyTax 105 0.1 ceil = 11] and
    [applyTax 105 0.1 round = 11] (the half value 10.5 rounds up). *)
Theorem C9_rounding_modes :
  applyTax 105 (1 # 10) floor = 10
  /\ applyTax 105 (1 # 10) ceil = 11
  /\ applyTax 105 (1 # 10) round = 11.
Proof. repeat split; reflexivity. Qed.

(** C10. Negative targets are always rejected: for every request with
    [subtotal >= 0], [taxRate] in [[0, 1]] and [targetTotal < 0],
    [calculateAdjustment] returns [isValid = false]; every total over the
    discounts of [[-subtotal, +subtotal]] is non-negative, so the sentinel
    [-1] of [calculateTotal] is never matched, also for
    [targetTotal = -1]. *)
Theorem C10_negative_target_rejected (params : AdjustmentParams) :
  0 <= subtotal params -> (0 <= taxRate params <= 1)%Q ->
  targetTotal params < 0 ->
  isValid (Bisection.calculateAdjustment params) = false
  /\ 0 <= finalTotal (Bisection.calculateAdjustment params)
  /\ forall d log, - subtotal params <= d <= subtotal params ->
       0 <= fst (Bisection.calculateTotal (subtotal params) (taxRate params)
                   (roundModeOrDefault (roundMode params)) d log).
Proof.
  intros Hs Hr Ht.
  destruct (bisection_Closest params (conj Hs Hr))
    as (Hd & Ha & Htax & Hf & Hv & _).
  destruct Hr as [Hr0 Hr1].
  pose proof (applyTax_nonneg (taxRate params)
                (roundModeOrDefault (roundMode params))
                (adjustedSubtotal (B params)) Hr0 ltac:(lia)) as Hnn.
  rewrite <- Htax in Hnn.
  split; [| split].
  - rewrite Hv. apply Z.eqb_neq. lia.
  - lia.
  - intros d log Hin. rewrite calculateTotal_in by lia. simpl.
    apply total_nonneg; [exact Hr0 | lia].
Qed.

Lemma C10_negative_target_rejected_witness :
  (0 <= subtotal negativeTarget /\ (0 <= taxRate negativeTarget <= 1)%Q
   /\ targetTotal negativeTarget < 0)
  /\ isValid (Bisection.calculateAdjustment negativeTarget) = false.
Proof.
  assert (Hs : 0 <= subtotal negativeTarget) by (simpl; lia).
  assert (Hr : (0 <= taxRate negativeTarget <= 1)%Q)
    by (split; unfold Qle; simpl; lia).
  assert (Ht : targetTotal negativeTarget < 0) by (simpl; lia).
  split; [repeat split; solve [apply Hs | apply Hr | apply Ht] |].
  apply (C10_negative_target_rejected negativeTarget Hs Hr Ht).
Defined.

(** * Further properties of the core *)

(** ** The tax primitive *)

Lemma Qfloor_half (z : Z) : Qfloor (inject_Z z + (1 # 2)) = z.
Proof.
  unfold Qfloor, Qplus, inject_Z. cbn [Qnum Qden].
  change (Z.pos (1 * 2)) with 2.
  replace (z * 2 + 1 * 1) with (1 + z * 2) by lia.
  rewrite Z.div_add by lia. reflexivity.
Qed.






(** X2. The three rounding modes are ordered on every amount and rate:
    [floor] gives at most [round], [round] at most [ceil], and [ceil] at
    most one more than [floor]. *)
Theorem X2_rounding_modes_ordered (amount : Z) (rate : Q) :
  applyTax amount rate floor <= applyTax amount rate round
  /\ applyTax amount rate round <= applyTax amount rate ceil
  /\ applyTax amount rate ceil <= applyTax amount rate floor + 1.
Proof.
  unfold applyTax; cbv zeta. unfold Math.floor, Math.ceil, Math.round.
  set (x := (inject_Z amount * rate)%Q).
  split; [| split].
  - apply Qfloor_resp_le. lra.
  - rewrite <- (Qfloor_half (Qceiling x)). apply Qfloor_resp_le.
    pose proof (Qle_ceiling x). lra.
  - apply Z.lt_succ_r. rewrite Zlt_Qlt.
    pose proof (Qceiling_lt x) as H1. pose proof (Qlt_floor x) as H2.
    unfold Z.succ, Z.sub in *. rewrite !inject_Z_plus in *.
    rewrite inject_Z_opp in H1.
    change (inject_Z 1) with 1%Q in *. lra.
Qed.



(** ** The binary search: what its outcome looks like *)

Section BisectionOutcome.

Variable params : AdjustmentParams.
Hypothesis Hs : 0 <= subtotal params.
Hypothesis Hr : (0 <= taxRate params <= 1)%Q.

Local Abbreviation s := (subtotal params).
Local Abbreviation t := (targetTotal params).
Local Abbreviation rate := (taxRate params).
Local Abbreviation mode := (roundModeOrDefault (roundMode params)).
Local Abbreviation tot := (total s rate mode).
Local Abbreviation r := (Bisection.calculateAdjustment params).

Lemma outcome_total :
  - s <= discount r <= s /\ finalTotal r = tot (discount r).
Proof.
  destruct (bisection_Closest params (conj Hs Hr))
    as (Hd & Ha & Htax & Hf & _).
  split; [exact Hd |]. unfold total. rewrite <- Ha, <- Htax. exact Hf.
Qed.

Lemma outcome_closest d :
  - s <= d <= s -> Z.abs (finalTotal r - t) <= Z.abs (tot d - t).
Proof.
  destruct (bisection_Closest params (conj Hs Hr)) as (_ & _ & _ & _ & _ & _ & H).
  apply H.
Qed.

Lemma outcome_valid_iff : isValid r = true <-> finalTotal r = t.
Proof.
  destruct (bisection_Closest params (conj Hs Hr))
    as (_ & _ & _ & _ & Hv & _).
  rewrite Hv. apply Z.eqb_eq.
Qed.

Lemma tot_strict d1 d2 : d1 < d2 -> tot d2 < tot d1.
Proof. apply total_strict. apply Hr. Qed.

Lemma tot_injective d1 d2 : tot d1 = tot d2 -> d1 = d2.
Proof.
  intros H. destruct (Z.lt_trichotomy d1 d2) as [L | [E | L]];
    [| exact E |]; apply tot_strict in L; lia.
Qed.




End BisectionOutcome.



(** X5. For a request that passes validation, the outcome is an exact
    match with a zero discount if and only if the target already is the
    current total [subtotal + applyTax subtotal]; the call then costs a
    single call of [applyTax]. *)
Theorem X5_zero_discount_iff_at_target (params : AdjustmentParams) :
  0 <= subtotal params -> (0 <= taxRate params <= 1)%Q ->
  let current :=
    subtotal params
    + applyTax (subtotal params) (taxRate params)
               (roundModeOrDefault (roundMode params)) in
  let r := Bisection.calculateAdjustment params in
  (targetTotal params = current <-> isValid r = true /\ discount r = 0)
  /\ (targetTotal params = current ->
      Bisection.probes params = [subtotal params]).
Proof.
  intros Hs Hr. cbv zeta. split; [split |].
  - intros Ht.
    assert (H0 : total (subtotal params) (taxRate params)
                   (roundModeOrDefault (roundMode params)) 0
                 = targetTotal params).
    { unfold total. rewrite Z.sub_0_r. symmetry. exact Ht. }
    assert (Hv : isValid (Bisection.calculateAdjustment params) = true).
    { apply (outcome_valid_iff params Hs Hr).
      pose proof (outcome_closest params Hs Hr 0 ltac:(lia)) as Hc.
      rewrite H0 in Hc. lia. }
    split; [exact Hv |].
    symmetry. apply (tot_injective params Hr).
    destruct (outcome_total params Hs Hr) as [_ Hf].
    rewrite <- Hf, H0. symmetry.
    apply (outcome_valid_iff params Hs Hr). exact Hv.
  - intros [Hv Hd].
    destruct (outcome_total params Hs Hr) as [_ Hf].
    apply (outcome_valid_iff params Hs Hr) in Hv.
    rewrite Hd in Hf. unfold total in Hf. rewrite Z.sub_0_r in Hf. lia.
  - intros Ht. destruct (validation_passes _ _ Hs Hr) as [V1 V2].
    unfold Bisection.probes, Bisection.calculateAdjustmentM, Bisection.search.
    rewrite V1, V2. unfold bind, applyTaxM.
    rewrite <- Ht, Z.eqb_refl. reflexivity.
Qed.

Lemma X5_zero_discount_iff_at_target_witness :
  (0 <= subtotal (mkParams 1234 1357 (1 # 10) None)
   /\ (0 <= taxRate (mkParams 1234 1357 (1 # 10) None) <= 1)%Q)
  /\ Bisection.probes (mkParams 1234 1357 (1 # 10) None) = [1234].
Proof.
  assert (Hs : 0 <= subtotal (mkParams 1234 1357 (1 # 10) None))
    by (simpl; lia).
  assert (Hr : (0 <= taxRate (mkParams 1234 1357 (1 # 10) None) <= 1)%Q)
    by (split; unfold Qle; simpl; lia).
  split; [split; assumption |].
  apply (X5_zero_discount_iff_at_target
           (mkParams 1234 1357 (1 # 10) None) Hs Hr).
  reflexivity.
Defined.

(** X6. The sign of the discount follows the direction of the target: a
    target below the current total never gives a surcharge, a target above
    it never gives a discount, and an exact match is then a proper
    discount or a proper surcharge. *)
Theorem X6_discount_sign (params : AdjustmentParams) :
  0 <= subtotal params -> (0 <= taxRate params <= 1)%Q ->
  let current :=
    subtotal params
    + applyTax (subtotal params) (taxRate params)
               (roundModeOrDefault (roundMode params)) in
  let r := Bisection.calculateAdjustment params in
  (targetTotal params < current ->
   0 <= discount r /\ (isValid r = true -> 0 < discount r))
  /\ (current < targetTotal params ->
      discount r <= 0 /\ (isValid r = true -> discount r < 0)).
Proof.
  intros Hs Hr. cbv zeta.
  destruct (outcome_total params Hs Hr) as [Hd Hf].
  pose proof (outcome_closest params Hs Hr 0 ltac:(lia)) as Hc.
  pose proof (outcome_valid_iff params Hs Hr) as Hv.
  rewrite Hf in Hc, Hv.
  assert (H0 : total (subtotal params) (taxRate params)
                 (roundModeOrDefault (roundMode params)) 0
               = subtotal params
                 + applyTax (subtotal params) (taxRate params)
                     (roundModeOrDefault (roundMode params))).
  { unfold total. rewrite Z.sub_0_r. reflexivity. }
  rewrite <- H0.
  split; intros Ht.
  - assert (Hge : 0 <= discount (Bisection.calculateAdjustment params)).
    { destruct (Z.le_gt_cases 0 (discount (Bisection.calculateAdjustment params)))
        as [H | H]; [exact H |].
      pose proof (tot_strict params Hr _ _ H). lia. }
    split; [exact Hge |]. intros V. apply Hv in V.
    destruct (Z.eq_dec (discount (Bisection.calculateAdjustment params)) 0)
      as [E | E]; [rewrite E in V; lia | lia].
  - assert (Hle : discount (Bisection.calculateAdjustment params) <= 0).
    { destruct (Z.le_gt_cases (discount (Bisection.calculateAdjustment params)) 0)
        as [H | H]; [exact H |].
      pose proof (tot_strict params Hr _ _ H). lia. }
    split; [exact Hle |]. intros V. apply Hv in V.
    destruct (Z.eq_dec (discount (Bisection.calculateAdjustment params)) 0)
      as [E | E]; [rewrite E in V; lia | lia].
Qed.

Lemma X6_discount_sign_witness :
  (0 <= subtotal discounted /\ (0 <= taxRate discounted <= 1)%Q
   /\ targetTotal discounted < 1100)
  /\ 0 <= discount (Bisection.calculateAdjustment discounted).
Proof.
  assert (Hs : 0 <= subtotal discounted) by (simpl; lia).
  assert (Hr : (0 <= taxRate discounted <= 1)%Q)
    by (split; unfold Qle; simpl; lia).
  assert (Ht : targetTotal discounted < 1100) by (simpl; lia).
  split; [repeat split; solve [apply Hs | apply Hr | apply Ht] |].
  apply (X6_discount_sign discounted Hs Hr). exact Ht.
Defined.





(** X9. The helper [calculateTotal] returns its sentinel [-1] exactly on
    the discounts that exceed the subtotal, and then without calling
    [applyTax]; on every other discount it calls [applyTax] once, on the
    adjusted subtotal, and returns a non-negative total. *)
Theorem X9_calculateTotal_sentinel
  (s : Z) (rate : Q) (mode : RoundMode) (d : Z) (log : list Z) :
  (0 <= rate)%Q ->
  (s < d -> Bisection.calculateTotal s rate mode d log = (-1, log))
  /\ (d <= s ->
      Bisection.calculateTotal s rate mode d log
      = (total s rate mode d, (s - d) :: log)
      /\ 0 <= total s rate mode d)
  /\ (fst (Bisection.calculateTotal s rate mode d log) = -1 <-> s < d).
Proof.
  intros Hr.
  assert (H1 : s < d ->
               Bisection.calculateTotal s rate mode d log = (-1, log)).
  { intros H. unfold Bisection.calculateTotal.
    destruct (s - d <? 0) eqn:E; [reflexivity | apply Z.ltb_ge in E; lia]. }
  assert (H2 : d <= s ->
               Bisection.calculateTotal s rate mode d log
               = (total s rate mode d, (s - d) :: log)
               /\ 0 <= total s rate mode d).
  { intros H. split; [apply calculateTotal_in; exact H |
                      apply total_nonneg; assumption]. }
  split; [exact H1 | split; [exact H2 |]].
  split.
  - intros He. destruct (Z.le_gt_cases d s) as [Hle | Hgt]; [| exact Hgt].
    destruct (H2 Hle) as [Hc Hn]. rewrite Hc in He. simpl in He. lia.
  - intros Hlt. rewrite (H1 Hlt). reflexivity.
Qed.

Lemma X9_calculateTotal_sentinel_witness :
  (0 <= 1 # 10)%Q
  /\ Bisection.calculateTotal 100 (1 # 10) floor 101 [] = (-1, []).
Proof.
  assert (Hr : (0 <= 1 # 10)%Q) by (unfold Qle; simpl; lia).
  split; [exact Hr |].
  apply (X9_calculateTotal_sentinel 100 (1 # 10) floor 101 [] Hr). lia.
Defined.

(** ** The binary search: its calls of the tax primitive *)

Lemma Extends_refl (s : Z) (log : list Z) : Extends s 0 log log.
Proof. exists []. repeat split; [simpl; lia | constructor]. Qed.

Lemma Extends_cons (s a : Z) (log : list Z) :
  0 <= a <= 2 * s -> Extends s 1 log (a :: log).
Proof.
  intros H. exists [a]. repeat split; [simpl; lia | constructor; [exact H | constructor]].
Qed.

Lemma Extends_trans (s : Z) (n1 n2 : nat) (l0 l1 l2 : list Z) :
  Extends s n1 l0 l1 -> Extends s n2 l1 l2 -> Extends s (n1 + n2) l0 l2.
Proof.
  intros (new1 & -> & H1 & F1) (new2 & -> & H2 & F2).
  exists (new2 ++ new1)%list. split; [apply app_assoc |].
  split; [rewrite length_app; lia | apply Forall_app; split; assumption].
Qed.

Lemma Extends_weaken (s : Z) (n m : nat) (l0 l1 : list Z) :
  (n <= m)%nat -> Extends s n l0 l1 -> Extends s m l0 l1.
Proof.
  intros Hnm (new & -> & H & F). exists new. repeat split; [lia | exact F].
Qed.

Section BisectionProbes.

Variables (s t : Z) (rate : Q) (mode : RoundMode).
Hypothesis Hrate : (0 <= rate)%Q.

Lemma exactMatch_log d log :
  - s <= d <= s ->
  Extends s 1 log (snd (Bisection.exactMatch s t rate mode d log)).
Proof.
  intros Hd. unfold Bisection.exactMatch, bind, ret, applyTaxM. simpl.
  apply Extends_cons. lia.
Qed.

Lemma whileBody_log v log :
  Inv s t rate mode v ->
  (Bisection.maxDiscount v - Bisection.minDiscount v >? 1) = true ->
  match Bisection.whileBody s t rate mode v log with
  | (Return _, log') => Extends s 2 log log'
  | (Next v', log') => Extends s 1 log log' /\ (rounds v' + 1 <= rounds v)%nat
  end.
Proof.
  intros (Hrange & Hbest & Hdiff & HL & HR) Hc. apply Z.gtb_lt in Hc.
  unfold Bisection.whileBody, Math.floor. rewrite <- Zdiv_Qdiv.
  set (mid := (Bisection.minDiscount v + Bisection.maxDiscount v) / 2).
  assert (Hmid : 2 * mid <= Bisection.minDiscount v + Bisection.maxDiscount v
                 <= 2 * mid + 1)
    by (subst mid; Z.div_mod_to_equations; lia).
  unfold bind at 1. rewrite (calculateTotal_in s rate mode) by lia.
  assert (Hshrink : forall lo hi,
             0 <= hi - lo ->
             2 * (hi - lo + 1)
             <= Bisection.maxDiscount v - Bisection.minDiscount v + 1 ->
             (Z.to_nat (Z.log2 (hi - lo + 1)) + 1
              <= Z.to_nat (Z.log2 (Bisection.maxDiscount v
                                   - Bisection.minDiscount v + 1)))%nat).
  { intros lo hi H0 H2.
    pose proof (Z.log2_double (hi - lo + 1) ltac:(lia)) as Hd.
    pose proof (Z.log2_le_mono _ _ H2) as Hm.
    pose proof (Z.log2_nonneg (hi - lo + 1)). lia. }
  destruct (total s rate mode mid =? -1).
  - unfold ret. split; [apply Extends_cons; lia |].
    unfold rounds; simpl. apply Hshrink; lia.
  - destruct (total s rate mode mid =? t).
    + unfold bind.
      pose proof (exactMatch_log mid ((s - mid) :: log) ltac:(lia)) as HX.
      destruct (Bisection.exactMatch s t rate mode mid _) as [r log'].
      simpl in HX. unfold ret.
      apply (Extends_trans s 1 1 log ((s - mid) :: log) log');
        [apply Extends_cons; lia | exact HX].
    + unfold Bisection.track.
      destruct (_ <? Bisection.bestDifference v),
               (total s rate mode mid >? t);
        unfold ret; (split; [apply Extends_cons; lia |]);
        unfold rounds; simpl; apply Hshrink; lia.
Qed.

Lemma while_log v log :
  Inv s t rate mode v ->
  match Bisection.while s t rate mode v log with
  | (Return _, log') => Extends s (rounds v + 1) log log'
  | (Next v', log') =>
      Extends s (rounds v) log log'
      /\ Bisection.maxDiscount v' - Bisection.minDiscount v' <= 1
  end.
Proof.
  remember (rounds v) as n eqn:Hn.
  revert v log Hn.
  induction n as [n IH] using lt_wf_ind. intros v log Hn HI.
  rewrite while_unfold.
  destruct (Bisection.maxDiscount v - Bisection.minDiscount v >? 1) eqn:Hc.
  - pose proof (whileBody_Inv s t rate mode Hrate v log HI Hc) as Hb.
    pose proof (whileBody_log v log HI Hc) as Hl.
    destruct (Bisection.whileBody s t rate mode v log) as [[r | v'] log'].
    + apply (Extends_weaken s 2); [| exact Hl].
      destruct HI as ((? & ? & ?) & _). apply Z.gtb_lt in Hc.
      assert (1 <= Z.log2 (Bisection.maxDiscount v
                           - Bisection.minDiscount v + 1)).
      { apply Z.log2_le_pow2; lia. }
      subst n. unfold rounds. lia.
    + destruct Hl as [Hl Hlt].
      specialize (IH (rounds v') ltac:(lia) v' log' eq_refl Hb).
      destruct (Bisection.while s t rate mode v' log') as [[r | v''] log''].
      * apply (Extends_weaken s (1 + (rounds v' + 1))); [lia |].
        apply (Extends_trans s _ _ log log' log''); assumption.
      * destruct IH as [IH Hw]. split; [| exact Hw].
        apply (Extends_weaken s (1 + rounds v')); [lia |].
        apply (Extends_trans s _ _ log log' log''); assumption.
  - split; [apply (Extends_weaken s 0); [lia | apply Extends_refl] |].
    rewrite Z.gtb_ltb in Hc. apply Z.ltb_ge in Hc. exact Hc.
Qed.

Lemma forBody_log v d log :
  - s <= d <= s ->
  match Bisection.forBody s t rate mode v d log with
  | (Return _, log') => Extends s 2 log log'
  | (Next _, log') => Extends s 1 log log'
  end.
Proof.
  intros Hd. unfold Bisection.forBody. unfold bind at 1.
  rewrite (calculateTotal_in s rate mode) by lia.
  destruct (total s rate mode d =? -1).
  - unfold ret. apply Extends_cons. lia.
  - destruct (total s rate mode d =? t).
    + unfold bind.
      pose proof (exactMatch_log d ((s - d) :: log) Hd) as HX.
      destruct (Bisection.exactMatch s t rate mode d _) as [r log'].
      simpl in HX. unfold ret.
      apply (Extends_trans s 1 1 log ((s - d) :: log) log');
        [apply Extends_cons; lia | exact HX].
    + unfold ret. apply Extends_cons. lia.
Qed.

Lemma for_log ds : forall v log,
  (forall d, In d ds -> - s <= d <= s) ->
  match Bisection.for_ s t rate mode ds v log with
  | (Return _, log') => Extends s (List.length ds + 1) log log'
  | (Next _, log') => Extends s (List.length ds) log log'
  end.
Proof.
  induction ds as [| d ds IH]; intros v log Hds; simpl.
  - unfold ret. apply Extends_refl.
  - unfold bind.
    pose proof (forBody_log v d log (Hds d (or_introl eq_refl))) as Hb.
    destruct (Bisection.forBody s t rate mode v d log) as [[r | v'] log'].
    + unfold ret. apply (Extends_weaken s 2); [lia | exact Hb].
    + specialize (IH v' log' (fun d' H => Hds d' (or_intror H))).
      destruct (Bisection.for_ s t rate mode ds v' log') as [[r | v''] log''].
      * apply (Extends_weaken s (1 + (List.length ds + 1))); [lia |].
        apply (Extends_trans s _ _ log log' log''); assumption.
      * apply (Extends_weaken s (1 + List.length ds)); [lia |].
        apply (Extends_trans s _ _ log log' log''); assumption.
Qed.

End BisectionProbes.

Lemma zrange_length (lo hi : Z) :
  List.length (zrange lo hi) = Z.to_nat (hi - lo + 1).
Proof. unfold zrange. rewrite length_map, length_seq. reflexivity. Qed.

(** The calls of [applyTax] of a search that passes validation. *)
Lemma search_log (s t : Z) (rate : Q) (mode : RoundMode) :
  0 <= s -> (0 <= rate <= 1)%Q ->
  Extends s (Z.to_nat (Z.log2 (2 * s + 1)) + 4) []
          (snd (Bisection.search s t rate mode [])).
Proof.
  intros Hs Hr. destruct (validation_passes s rate Hs Hr) as [V1 V2].
  destruct Hr as [Hr0 Hr1].
  unfold Bisection.search. rewrite V1, V2.
  unfold bind at 1, applyTaxM at 1.
  assert (H0 : Extends s 1 [] [s]) by (apply Extends_cons; lia).
  destruct (s + applyTax s rate mode =? t) eqn:E.
  - unfold ret; cbn [snd]. apply (Extends_weaken s 1); [lia | exact H0].
  - unfold bind at 1.
    match goal with |- context [Bisection.while _ _ _ _ ?v0 ?l0] =>
      assert (HI0 : Inv s t rate mode v0)
        by (unfold Inv, Math.abs, total; simpl;
            replace (s - 0) with s by lia; repeat split; lia);
      pose proof (while_Inv s t rate mode Hr0 v0 l0 HI0) as HW;
      pose proof (while_log s t rate mode Hr0 v0 l0 HI0) as HL;
      unfold rounds in HL;
      cbn [Bisection.maxDiscount Bisection.minDiscount] in HL;
      destruct (Bisection.while s t rate mode v0 l0) as [[r | v] log]
    end.
    + unfold ret; cbn [snd].
      replace (s - - s + 1) with (2 * s + 1) in HL by lia.
      apply (Extends_weaken s (1 + (Z.to_nat (Z.log2 (2 * s + 1)) + 1)));
        [lia |].
      apply (Extends_trans s _ _ [] [s] log); assumption.
    + destruct HL as [HL Hw].
      replace (s - - s + 1) with (2 * s + 1) in HL by lia.
      assert (H1 : Extends s (1 + Z.to_nat (Z.log2 (2 * s + 1))) [] log)
        by (apply (Extends_trans s _ _ [] [s] log); assumption).
      assert (Hin : forall d,
                 In d (zrange (Bisection.minDiscount v)
                              (Bisection.maxDiscount v)) ->
                 - s <= d <= s).
      { intros d Hd. apply zrange_In in Hd.
        destruct HW as ((? & ? & ?) & _). lia. }
      unfold bind.
      pose proof (for_Covers s t rate mode Hr0 _ v log _ Hin
                    (Inv_Covers s t rate mode v HW)) as HF.
      pose proof (for_log s t rate mode _ v log Hin) as HFL.
      rewrite zrange_length in HFL.
      destruct HW as ((? & ? & ?) & _).
      destruct (Bisection.for_ s t rate mode _ v log) as [[r | v'] log'].
      * unfold ret; cbn [snd].
        apply (Extends_weaken s
                 (1 + Z.to_nat (Z.log2 (2 * s + 1))
                  + (Z.to_nat (Bisection.maxDiscount v
                               - Bisection.minDiscount v + 1) + 1)));
          [lia |].
        apply (Extends_trans s _ _ [] log log'); assumption.
      * destruct HF as (Hbest & _).
        unfold Bisection.bestMatch, bind, ret, applyTaxM; cbn [snd].
        apply (Extends_weaken s
                 (1 + Z.to_nat (Z.log2 (2 * s + 1))
                  + Z.to_nat (Bisection.maxDiscount v
                              - Bisection.minDiscount v + 1) + 1));
          [lia |].
        apply (Extends_trans s _ 1 [] log' _);
          [apply (Extends_trans s _ _ [] log log'); assumption |
           apply Extends_cons; lia].
Qed.



(** X11. The binary search calls [applyTax] on adjusted subtotals of the
    search space only: every amount it passes is between zero and twice
    the subtotal, never negative. *)
Theorem X11_probes_in_domain (params : AdjustmentParams) :
  0 <= subtotal params -> (0 <= taxRate params <= 1)%Q ->
  Forall (fun amount => 0 <= amount <= 2 * subtotal params)
         (Bisection.probes params).
Proof.
  intros Hs Hr.
  destruct (search_log (subtotal params) (targetTotal params)
              (taxRate params) (roundModeOrDefault (roundMode params)) Hs Hr)
    as (new & Heq & _ & HF).
  unfold Bisection.probes, Bisection.calculateAdjustmentM.
  rewrite Heq, app_nil_r. exact HF.
Qed.

Lemma X11_probes_in_domain_witness :
  (0 <= subtotal outOfReach /\ (0 <= taxRate outOfReach <= 1)%Q)
  /\ Forall (fun amount => 0 <= amount <= 2 * subtotal outOfReach)
            (Bisection.probes outOfReach).
Proof.
  assert (Hs : 0 <= subtotal outOfReach) by (simpl; lia).
  assert (Hr : (0 <= taxRate outOfReach <= 1)%Q)
    by (split; unfold Qle; simpl; lia).
  split; [split; assumption |].
  apply (X11_probes_in_domain outOfReach Hs Hr).
Defined.

(** ** The scan around an estimate: what its outcome looks like *)

Lemma ExactOutcome_Consistent (s t : Z) (rate : Q) (mode : RoundMode) r :
  ExactOutcome s t rate mode r -> Consistent s t rate mode r.
Proof.
  intros (Hv & Hf & Hn & Ha & Htax & Hsum & He).
  unfold Consistent. rewrite Hv, He, Hf, Z.eqb_refl.
  repeat split; try assumption. rewrite <- Hf. exact Hsum.
Qed.

Lemma estimate_Consistent (s t : Z) (rate : Q) (mode : RoundMode) :
  0 <= s -> (0 <= rate <= 1)%Q ->
  Consistent s t rate mode (fst (Estimate.search s t rate mode [])).
Proof.
  intros Hs Hr. destruct (validation_passes s rate Hs Hr) as [V1 V2].
  destruct Hr as [Hr0 Hr1].
  unfold Estimate.search. rewrite V1, V2.
  unfold bind at 1, applyTaxM at 1.
  destruct (s + applyTax s rate mode =? t) eqn:E.
  - unfold ret, Consistent. cbn [fst discount isValid adjustedSubtotal
                                 taxAmount finalTotal error].
    rewrite E. repeat split; lia.
  - unfold bind at 1.
    match goal with |- context [Estimate.exactFor _ _ _ _ ?e ?l ?g] =>
      pose proof (exactFor_spec s t rate mode e l g) as HX;
      destruct (Estimate.exactFor s t rate mode e l g) as [[r | u] log]
    end.
    + unfold ret. cbn [fst]. apply ExactOutcome_Consistent, HX.
    + clear HX. unfold bind.
      match goal with |- context [Estimate.closestFor _ _ _ _ ?e ?l ?v ?g] =>
        pose proof (closestFor_nonneg s t rate mode e l v g) as HC;
        destruct (Estimate.closestFor s t rate mode e l v g) as [v' log']
      end.
      cbn [fst Estimate.bestDiscount] in HC. specialize (HC ltac:(lia)).
      unfold Estimate.bestMatch, bind, ret, applyTaxM, Consistent.
      cbn [fst discount isValid adjustedSubtotal taxAmount finalTotal error].
      repeat split; try lia.
      destruct (s - Estimate.bestDiscount v'
                + applyTax (s - Estimate.bestDiscount v') rate mode =? t);
        reflexivity.
Qed.

(** X12. Every outcome of the scan around an estimate is consistent:
    [finalTotal = adjustedSubtotal + taxAmount],
    [adjustedSubtotal = subtotal - discount], [isValid = true] implies
    [finalTotal = targetTotal], and the [error] field is present exactly on
    the invalid outcomes; for a request that passes validation,
    [taxAmount] is the tax of the adjusted subtotal and [isValid] holds
    exactly when [finalTotal = targetTotal]. *)
Theorem X12_estimate_outcome_consistent (params : AdjustmentParams) :
  let r := Estimate.calculateAdjustment params in
  finalTotal r = adjustedSubtotal r + taxAmount r
  /\ adjustedSubtotal r = subtotal params - discount r
  /\ (isValid r = true -> finalTotal r = targetTotal params)
  /\ (error r <> None <-> isValid r = false)
  /\ (0 <= subtotal params /\ (0 <= taxRate params <= 1)%Q ->
      taxAmount r = applyTax (adjustedSubtotal r) (taxRate params)
                             (roundModeOrDefault (roundMode params))
      /\ (isValid r = true <-> finalTotal r = targetTotal params)).
Proof.
  cbv zeta.
  unfold Estimate.calculateAdjustment, Estimate.calculateAdjustmentM.
  set (s := subtotal params). set (t := targetTotal params).
  set (rate := taxRate params).
  set (mode := roundModeOrDefault (roundMode params)).
  destruct (estimate_validation s t rate mode) as [EV1 EV2].
  destruct (Z.lt_ge_cases s 0) as [Hneg | Hs].
  - rewrite (EV1 Hneg). cbn.
    split; [lia |]. split; [lia |]. split; [discriminate |].
    split; [split; [reflexivity | discriminate] |]. lia.
  - destruct (rate_range_dec rate) as [Hr | Hr].
    + destruct (estimate_Consistent s t rate mode Hs Hr)
        as (Ha & Hn & Htax & Hf & Hv & He).
      rewrite He, Hv.
      destruct (Z.eqb_spec (finalTotal (fst (Estimate.search s t rate mode [])))
                  t) as [Heq | Hne].
      * split; [exact Hf |]. split; [exact Ha |].
        split; [intros _; exact Heq |].
        split; [split; [intros H; destruct (H eq_refl) | discriminate] |].
        intros _. split; [exact Htax |].
        split; [intros _; exact Heq | reflexivity].
      * split; [exact Hf |]. split; [exact Ha |].
        split; [discriminate |].
        split; [split; [reflexivity | discriminate] |].
        intros _. split; [exact Htax |].
        split; [discriminate | intros H; destruct (Hne H)].
    + rewrite (EV2 Hs Hr). cbn.
      split; [lia |]. split; [lia |]. split; [discriminate |].
      split; [split; [reflexivity | discriminate] |].
      intros [_ Hr']. destruct (Hr Hr').
Qed.



(** * Properties of the Stripe adjuster *)

Example adjuster_on_worked :
  TaxFitter.applyAdjustment Bisection.calculateAdjustment
    (mockStripe draftInvoice) workedOptions []
  = (Stripe.Resolved
       (StripeAdjustmentResult.mk "ii_test123"%string 3636 286364 28636 315000),
     [Stripe.Retrieve "in_test123";
      Stripe.Create
        (Stripe.InvoiceItemCreateParams.mk
           "in_test123" (Stripe.CustomerId "cus_test123") (-3636) "jpy"
           "Tax adjustment"
           [("tax_fitter_adjustment", "true");
            ("original_subtotal", "290000");
            ("target_total", "315000");
            ("calculated_discount", "3636")]%string)]).
Proof. vm_compute. reflexivity. Qed.

Example adjuster_on_paid_invoice :
  TaxFitter.applyAdjustment Bisection.calculateAdjustment
    (mockStripe paidInvoice) workedOptions []
  = (Stripe.Rejected
       "Invoice in_test123 is not in draft state. Current status: paid. Tax adjustments can only be applied to draft invoices."%string,
     [Stripe.Retrieve "in_test123"]).
Proof. vm_compute. reflexivity. Qed.

Lemma get_set_same (key value : string) (object : Stripe.Metadata) :
  Stripe.get key (Stripe.set key value object) = Some value.
Proof.
  induction object as [| [k v] rest IH]; simpl.
  - rewrite String.eqb_refl. reflexivity.
  - destruct (String.eqb key k) eqn:E; simpl.
    + rewrite String.eqb_refl. reflexivity.
    + rewrite E. exact IH.
Qed.

Lemma get_set_other (key key' value : string) (object : Stripe.Metadata) :
  key' <> key ->
  Stripe.get key' (Stripe.set key value object) = Stripe.get key' object.
Proof.
  intros Hne. induction object as [| [k v] rest IH]; simpl.
  - apply String.eqb_neq in Hne. rewrite Hne. reflexivity.
  - destruct (String.eqb key k) eqn:E; simpl.
    + apply String.eqb_eq in E. subst k.
      apply String.eqb_neq in Hne. rewrite Hne. reflexivity.
    + rewrite IH. reflexivity.
Qed.

Lemma notDraft_false (status : option string) :
  notDraft status = false <-> status = Some "draft"%string.
Proof.
  unfold notDraft. destruct status as [st |]; [| split; discriminate].
  destruct (String.eqb_spec st "draft") as [-> | Hne]; simpl.
  - split; reflexivity.
  - split; [discriminate | intros [= H]; destruct (Hne H)].
Qed.

Section AdjusterCases.

Context {InvoiceItem : Type}.
Variable core : AdjustmentParams -> AdjustmentResult.
Variable stripe : Stripe.Client InvoiceItem.
Variable options : StripeAdjustmentOptions.t.

Local Abbreviation id := (StripeAdjustmentOptions.invoiceId options).
Local Abbreviation run := (TaxFitter.applyAdjustment core stripe options []).

(** The parameters of the line item the adjuster creates for an invoice
    and an adjustment. *)
Local Abbreviation itemFor invoice sub adj :=
  (Stripe.InvoiceItemCreateParams.mk
     id
     (Stripe.Invoice.customer invoice)
     (- discount adj)
     (Stripe.Invoice.currency invoice)
     (match StripeAdjustmentOptions.description options with
      | Some d => d
      | None => "Tax adjustment"%string
      end)
     (adjustmentMetadata (StripeAdjustmentOptions.metadata options) sub
        (StripeAdjustmentOptions.targetTotal options) (discount adj))).

Local Abbreviation requestFor sub :=
  (mkParams sub (StripeAdjustmentOptions.targetTotal options)
            (StripeAdjustmentOptions.taxRate options)
            (Some (roundModeOrDefault
                     (StripeAdjustmentOptions.roundMode options)))).

Lemma adjuster_retrieve_rejected reason :
  Stripe.invoices_retrieve stripe id = Stripe.Rejected reason ->
  run = (Stripe.Rejected reason, [Stripe.Retrieve id]).
Proof.
  intros H. unfold TaxFitter.applyAdjustment, await, retrieveInvoice.
  cbv zeta. rewrite H. reflexivity.
Qed.

Lemma adjuster_not_draft invoice :
  Stripe.invoices_retrieve stripe id = Stripe.Resolved invoice ->
  Stripe.Invoice.status invoice <> Some "draft"%string ->
  run = (Stripe.Rejected (notDraftMessage id (Stripe.Invoice.status invoice)),
         [Stripe.Retrieve id]).
Proof.
  intros H Hst. unfold TaxFitter.applyAdjustment, await, retrieveInvoice.
  cbv zeta. rewrite H.
  destruct (notDraft (Stripe.Invoice.status invoice)) eqn:E;
    [reflexivity | apply notDraft_false in E; destruct (Hst E)].
Qed.

Lemma adjuster_zero_subtotal invoice :
  Stripe.invoices_retrieve stripe id = Stripe.Resolved invoice ->
  Stripe.Invoice.status invoice = Some "draft"%string ->
  Stripe.Invoice.subtotal invoice = None
  \/ Stripe.Invoice.subtotal invoice = Some 0 ->
  run = (Stripe.Rejected (zeroSubtotalMessage id), [Stripe.Retrieve id]).
Proof.
  intros H Hst Hsub. unfold TaxFitter.applyAdjustment, await, retrieveInvoice.
  cbv zeta. rewrite H.
  apply notDraft_false in Hst. rewrite Hst.
  destruct Hsub as [-> | ->]; reflexivity.
Qed.

Lemma adjuster_invalid invoice sub :
  Stripe.invoices_retrieve stripe id = Stripe.Resolved invoice ->
  Stripe.Invoice.status invoice = Some "draft"%string ->
  Stripe.Invoice.subtotal invoice = Some sub -> sub <> 0 ->
  isValid (core (requestFor sub)) = false ->
  run = (Stripe.Rejected
           (invalidAdjustmentMessage (error (core (requestFor sub)))),
         [Stripe.Retrieve id]).
Proof.
  intros H Hst Hsub Hnz Hv.
  unfold TaxFitter.applyAdjustment, await, retrieveInvoice.
  cbv zeta. rewrite H.
  apply notDraft_false in Hst. rewrite Hst, Hsub.
  apply Z.eqb_neq in Hnz. rewrite Hnz, Hv. reflexivity.
Qed.

Lemma adjuster_valid invoice sub :
  Stripe.invoices_retrieve stripe id = Stripe.Resolved invoice ->
  Stripe.Invoice.status invoice = Some "draft"%string ->
  Stripe.Invoice.subtotal invoice = Some sub -> sub <> 0 ->
  isValid (core (requestFor sub)) = true ->
  run
  = (match Stripe.invoiceItems_create stripe
             (itemFor invoice sub (core (requestFor sub))) with
     | Stripe.Resolved item =>
         Stripe.Resolved
           (StripeAdjustmentResult.mk item
              (discount (core (requestFor sub)))
              (adjustedSubtotal (core (requestFor sub)))
              (taxAmount (core (requestFor sub)))
              (finalTotal (core (requestFor sub))))
     | Stripe.Rejected reason => Stripe.Rejected reason
     end,
     [Stripe.Retrieve id;
      Stripe.Create (itemFor invoice sub (core (requestFor sub)))]).
Proof.
  intros H Hst Hsub Hnz Hv.
  unfold TaxFitter.applyAdjustment, await, retrieveInvoice, createInvoiceItem.
  cbv zeta. rewrite H.
  apply notDraft_false in Hst. rewrite Hst, Hsub.
  apply Z.eqb_neq in Hnz. rewrite Hnz, Hv. cbn [negb].
  destruct (Stripe.invoiceItems_create stripe _); reflexivity.
Qed.

(** Every run of the adjuster is one of the five above. *)
Lemma adjuster_cases :
  (exists reason,
     Stripe.invoices_retrieve stripe id = Stripe.Rejected reason)
  \/ exists invoice,
       Stripe.invoices_retrieve stripe id = Stripe.Resolved invoice
       /\ (Stripe.Invoice.status invoice <> Some "draft"%string
           \/ Stripe.Invoice.status invoice = Some "draft"%string
              /\ ((Stripe.Invoice.subtotal invoice = None
                   \/ Stripe.Invoice.subtotal invoice = Some 0)
                  \/ exists sub,
                       Stripe.Invoice.subtotal invoice = Some sub
                       /\ sub <> 0)).
Proof.
  destruct (Stripe.invoices_retrieve stripe id) as [invoice | reason];
    [right | left; eauto].
  exists invoice. split; [reflexivity |].
  destruct (notDraft (Stripe.Invoice.status invoice)) eqn:E.
  - left. intros H. apply notDraft_false in H. congruence.
  - right. apply notDraft_false in E. split; [exact E |].
    destruct (Stripe.Invoice.subtotal invoice) as [sub |]; [| left; auto].
    destruct (Z.eq_dec sub 0) as [-> | Hnz]; [left; auto | right; eauto].
Qed.

End AdjusterCases.

(** What an exact match of either search looks like. *)
Lemma core_valid_outcome (core : AdjustmentParams -> AdjustmentResult)
  (params : AdjustmentParams) :
  core = Bisection.calculateAdjustment \/ core = Estimate.calculateAdjustment ->
  isValid (core params) = true ->
  (0 <= subtotal params /\ (0 <= taxRate params <= 1)%Q)
  /\ Consistent (subtotal params) (targetTotal params) (taxRate params)
                (roundModeOrDefault (roundMode params)) (core params)
  /\ finalTotal (core params) = targetTotal params.
Proof.
  intros Hcore Hv.
  assert (Hvalid : 0 <= subtotal params /\ (0 <= taxRate params <= 1)%Q).
  { destruct (Z.lt_ge_cases (subtotal params) 0) as [Hneg | Hs].
    - exfalso. destruct Hcore as [-> | ->].
      + destruct (bisection_cases (subtotal params) (targetTotal params)
                    (taxRate params) (roundModeOrDefault (roundMode params)))
          as [[_ HB] | [(Hs & _) | (Hs & _)]]; try lia.
        unfold Bisection.calculateAdjustment,
          Bisection.calculateAdjustmentM in Hv.
        rewrite HB in Hv. discriminate Hv.
      + destruct (estimate_validation (subtotal params) (targetTotal params)
                    (taxRate params) (roundModeOrDefault (roundMode params)))
          as [EV _].
        unfold Estimate.calculateAdjustment,
          Estimate.calculateAdjustmentM in Hv.
        rewrite (EV Hneg) in Hv. discriminate Hv.
    - split; [exact Hs |].
      destruct (rate_range_dec (taxRate params)) as [Hr | Hr]; [exact Hr |].
      exfalso. destruct Hcore as [-> | ->].
      + destruct (bisection_cases (subtotal params) (targetTotal params)
                    (taxRate params) (roundModeOrDefault (roundMode params)))
          as [[Hneg _] | [(_ & _ & HB) | (_ & Hr' & _)]];
          [lia | | destruct (Hr Hr')].
        unfold Bisection.calculateAdjustment,
          Bisection.calculateAdjustmentM in Hv.
        rewrite HB in Hv. discriminate Hv.
      + destruct (estimate_validation (subtotal params) (targetTotal params)
                    (taxRate params) (roundModeOrDefault (roundMode params)))
          as [_ EV].
        unfold Estimate.calculateAdjustment,
          Estimate.calculateAdjustmentM in Hv.
        rewrite (EV Hs Hr) in Hv. discriminate Hv. }
  split; [exact Hvalid |].
  assert (HC : Consistent (subtotal params) (targetTotal params)
                 (taxRate params) (roundModeOrDefault (roundMode params))
                 (core params)).
  { destruct Hvalid as [Hs Hr]. destruct Hcore as [-> | ->].
    - apply ExactOutcome_Consistent, Closest_valid_Exact;
        [apply bisection_Closest; split; assumption | exact Hv].
    - apply estimate_Consistent; assumption. }
  split; [exact HC |].
  destruct HC as (_ & _ & _ & _ & Hval & _).
  rewrite Hv in Hval. symmetry in Hval. apply Z.eqb_eq in Hval. exact Hval.
Qed.

(** The requests of a run of the adjuster. *)
Lemma adjuster_calls {InvoiceItem : Type}
  (core : AdjustmentParams -> AdjustmentResult)
  (stripe : Stripe.Client InvoiceItem) (options : StripeAdjustmentOptions.t) :
  let id := StripeAdjustmentOptions.invoiceId options in
  let calls := snd (TaxFitter.applyAdjustment core stripe options []) in
  calls = [Stripe.Retrieve id]
  \/ exists invoice sub params,
       calls = [Stripe.Retrieve id; Stripe.Create params]
       /\ Stripe.invoices_retrieve stripe id = Stripe.Resolved invoice
       /\ Stripe.Invoice.status invoice = Some "draft"%string
       /\ Stripe.Invoice.subtotal invoice = Some sub
       /\ sub <> 0
       /\ let adjustment :=
            core (mkParams sub (StripeAdjustmentOptions.targetTotal options)
                    (StripeAdjustmentOptions.taxRate options)
                    (Some (roundModeOrDefault
                             (StripeAdjustmentOptions.roundMode options)))) in
          isValid adjustment = true
          /\ Stripe.InvoiceItemCreateParams.amount params
             = - discount adjustment.
Proof.
  cbv zeta.
  destruct (adjuster_cases stripe options)
    as [[reason H] | (invoice & H & [Hst | [Hst [Hsub | (sub & Hsub & Hnz)]]])].
  - left. rewrite (adjuster_retrieve_rejected core stripe options reason H).
    reflexivity.
  - left. rewrite (adjuster_not_draft core stripe options invoice H Hst).
    reflexivity.
  - left. rewrite (adjuster_zero_subtotal core stripe options invoice H Hst Hsub).
    reflexivity.
  - destruct (isValid
                (core (mkParams sub
                         (StripeAdjustmentOptions.targetTotal options)
                         (StripeAdjustmentOptions.taxRate options)
                         (Some (roundModeOrDefault
                                  (StripeAdjustmentOptions.roundMode options))))))
      eqn:Hv.
    + right. exists invoice, sub.
      rewrite (adjuster_valid core stripe options invoice sub H Hst Hsub Hnz Hv).
      eexists. split; [reflexivity |]. repeat split; auto.
    + left.
      rewrite (adjuster_invalid core stripe options invoice sub H Hst Hsub Hnz Hv).
      reflexivity.
Qed.

(** X14. The adjuster sends at most two requests: it always retrieves the
    invoice first, and it creates a line item only for a draft invoice
    with a non-zero subtotal for which the core returned a valid
    adjustment; the item's amount is the negated discount.  In every
    other case the invoice is left untouched. *)
Theorem X14_item_created_only_after_guards {InvoiceItem : Type}
  (core : AdjustmentParams -> AdjustmentResult)
  (stripe : Stripe.Client InvoiceItem) (options : StripeAdjustmentOptions.t) :
  let id := StripeAdjustmentOptions.invoiceId options in
  let calls := snd (TaxFitter.applyAdjustment core stripe options []) in
  calls = [Stripe.Retrieve id]
  \/ exists invoice sub params,
       calls = [Stripe.Retrieve id; Stripe.Create params]
       /\ Stripe.invoices_retrieve stripe id = Stripe.Resolved invoice
       /\ Stripe.Invoice.status invoice = Some "draft"%string
       /\ Stripe.Invoice.subtotal invoice = Some sub
       /\ sub <> 0
       /\ let adjustment :=
            core (mkParams sub (StripeAdjustmentOptions.targetTotal options)
                    (StripeAdjustmentOptions.taxRate options)
                    (Some (roundModeOrDefault
                             (StripeAdjustmentOptions.roundMode options)))) in
          isValid adjustment = true
          /\ Stripe.InvoiceItemCreateParams.amount params
             = - discount adjustment.
Proof. apply adjuster_calls. Qed.

(** X15. The guards of the adjuster: when the retrieval is rejected the
    adjuster is rejected with the same reason; a retrieved invoice that is
    not in draft state is rejected with a message that names the invoice
    and its status; a draft invoice whose subtotal is zero or missing is
    rejected with the zero-subtotal message.  No item is created. *)
Theorem X15_guard_rejections {InvoiceItem : Type}
  (core : AdjustmentParams -> AdjustmentResult)
  (stripe : Stripe.Client InvoiceItem) (options : StripeAdjustmentOptions.t) :
  let id := StripeAdjustmentOptions.invoiceId options in
  let run := TaxFitter.applyAdjustment core stripe options [] in
  match Stripe.invoices_retrieve stripe id with
  | Stripe.Rejected reason =>
      run = (Stripe.Rejected reason, [Stripe.Retrieve id])
  | Stripe.Resolved invoice =>
      (Stripe.Invoice.status invoice <> Some "draft"%string ->
       run = (Stripe.Rejected
                ("Invoice " ++ id ++ " is not in draft state. Current status: "
                 ++ statusText (Stripe.Invoice.status invoice)
                 ++ ". Tax adjustments can only be applied to draft invoices."),
              [Stripe.Retrieve id]))
      /\ (Stripe.Invoice.status invoice = Some "draft"%string ->
          Stripe.Invoice.subtotal invoice = None
          \/ Stripe.Invoice.subtotal invoice = Some 0 ->
          run = (Stripe.Rejected
                   ("Invoice " ++ id
                    ++ " has zero subtotal. Cannot calculate adjustment."),
                 [Stripe.Retrieve id]))
  end%string.
Proof.
  cbv zeta.
  destruct (Stripe.invoices_retrieve stripe
              (StripeAdjustmentOptions.invoiceId options))
    as [invoice | reason] eqn:H.
  - split.
    + intros Hst.
      rewrite (adjuster_not_draft core stripe options invoice H Hst).
      unfold notDraftMessage. reflexivity.
    + intros Hst Hsub.
      rewrite (adjuster_zero_subtotal core stripe options invoice H Hst Hsub).
      reflexivity.
  - apply adjuster_retrieve_rejected. exact H.
Qed.

(** X16. Validation failures of the core surface as rejections of the
    adjuster, with either search: a draft invoice with a negative subtotal
    is rejected with "Subtotal cannot be negative", and one with a positive
    subtotal and a tax rate outside [[0, 1]] with "Tax rate must be between
    0 and 1", each behind the prefix of the adjuster; no item is
    created. *)
Theorem X16_core_validation_surfaces {InvoiceItem : Type}
  (core : AdjustmentParams -> AdjustmentResult)
  (stripe : Stripe.Client InvoiceItem) (options : StripeAdjustmentOptions.t)
  (invoice : Stripe.Invoice.t) (sub : Z) :
  core = Bisection.calculateAdjustment \/ core = Estimate.calculateAdjustment ->
  Stripe.invoices_retrieve stripe (StripeAdjustmentOptions.invoiceId options)
  = Stripe.Resolved invoice ->
  Stripe.Invoice.status invoice = Some "draft"%string ->
  Stripe.Invoice.subtotal invoice = Some sub ->
  let run := TaxFitter.applyAdjustment core stripe options [] in
  let calls := [Stripe.Retrieve (StripeAdjustmentOptions.invoiceId options)] in
  (sub < 0 ->
   run = (Stripe.Rejected
            "Failed to calculate valid adjustment: Subtotal cannot be negative",
          calls))
  /\ (0 < sub ->
      (StripeAdjustmentOptions.taxRate options < 0
       \/ 1 < StripeAdjustmentOptions.taxRate options)%Q ->
      run = (Stripe.Rejected
               "Failed to calculate valid adjustment: Tax rate must be between 0 and 1",
             calls)).
Proof.
  intros Hcore H Hst Hsub. cbv zeta.
  set (t := StripeAdjustmentOptions.targetTotal options).
  set (rate := StripeAdjustmentOptions.taxRate options).
  set (mode := roundModeOrDefault (StripeAdjustmentOptions.roundMode options)).
  assert (Hneg : sub < 0 ->
                 core (mkParams sub t rate (Some mode))
                 = validationFailure sub "Subtotal cannot be negative").
  { intros Hlt. destruct Hcore as [-> | ->].
    - destruct (bisection_cases sub t rate mode)
        as [[_ HB] | [(Hs & _) | (Hs & _)]]; try lia.
      unfold Bisection.calculateAdjustment, Bisection.calculateAdjustmentM.
      cbn [subtotal targetTotal taxRate roundMode roundModeOrDefault].
      rewrite HB. reflexivity.
    - destruct (estimate_validation sub t rate mode) as [EV _].
      unfold Estimate.calculateAdjustment, Estimate.calculateAdjustmentM.
      cbn [subtotal targetTotal taxRate roundMode roundModeOrDefault].
      rewrite (EV Hlt). reflexivity. }
  assert (Hrate : 0 < sub -> (rate < 0 \/ 1 < rate)%Q ->
                  core (mkParams sub t rate (Some mode))
                  = validationFailure sub "Tax rate must be between 0 and 1").
  { intros Hpos Hout. pose proof (rate_outside rate Hout) as Hr.
    destruct Hcore as [-> | ->].
    - destruct (bisection_cases sub t rate mode)
        as [[Hlt _] | [(_ & _ & HB) | (_ & Hr' & _)]];
        [lia | | destruct (Hr Hr')].
      unfold Bisection.calculateAdjustment, Bisection.calculateAdjustmentM.
      cbn [subtotal targetTotal taxRate roundMode roundModeOrDefault].
      rewrite HB. reflexivity.
    - destruct (estimate_validation sub t rate mode) as [_ EV].
      unfold Estimate.calculateAdjustment, Estimate.calculateAdjustmentM.
      cbn [subtotal targetTotal taxRate roundMode roundModeOrDefault].
      rewrite (EV ltac:(lia) Hr). reflexivity. }
  split.
  - intros Hlt.
    rewrite (adjuster_invalid core stripe options invoice sub H Hst Hsub
               ltac:(lia)); fold t rate mode; rewrite (Hneg Hlt); reflexivity.
  - intros Hpos Hout.
    rewrite (adjuster_invalid core stripe options invoice sub H Hst Hsub
               ltac:(lia)); fold t rate mode; rewrite (Hrate Hpos Hout);
      reflexivity.
Qed.

Lemma X16_core_validation_surfaces_witness :
  TaxFitter.applyAdjustment Bisection.calculateAdjustment
    (mockStripe creditInvoice) workedOptions []
  = (Stripe.Rejected
       "Failed to calculate valid adjustment: Subtotal cannot be negative"%string,
     [Stripe.Retrieve "in_test123"]).
Proof.
  apply (X16_core_validation_surfaces Bisection.calculateAdjustment
           (mockStripe creditInvoice) workedOptions creditInvoice (-500)
           (or_introl eq_refl) eq_refl eq_refl eq_refl).
  lia.
Defined.



(** X18. A resolved adjustment is exact, with either search: the reported
    [finalTotal] is the target, it is the adjusted subtotal plus its tax,
    and the created line item brings the invoice's (positive) subtotal to
    exactly the adjusted subtotal: its amount is the negated discount, on
    the retrieved invoice, customer and currency, and the result carries
    the item Stripe created. *)
Theorem X18_resolved_adjustment_is_exact {InvoiceItem : Type}
  (core : AdjustmentParams -> AdjustmentResult)
  (stripe : Stripe.Client InvoiceItem) (options : StripeAdjustmentOptions.t)
  (result : StripeAdjustmentResult.t InvoiceItem) :
  core = Bisection.calculateAdjustment \/ core = Estimate.calculateAdjustment ->
  fst (TaxFitter.applyAdjustment core stripe options [])
  = Stripe.Resolved result ->
  let id := StripeAdjustmentOptions.invoiceId options in
  StripeAdjustmentResult.finalTotal result
  = StripeAdjustmentOptions.targetTotal options
  /\ StripeAdjustmentResult.adjustedSubtotal result
     + StripeAdjustmentResult.taxAmount result
     = StripeAdjustmentOptions.targetTotal options
  /\ StripeAdjustmentResult.taxAmount result
     = applyTax (StripeAdjustmentResult.adjustedSubtotal result)
         (StripeAdjustmentOptions.taxRate options)
         (roundModeOrDefault (StripeAdjustmentOptions.roundMode options))
  /\ 0 <= StripeAdjustmentResult.adjustedSubtotal result
  /\ exists invoice sub params,
       snd (TaxFitter.applyAdjustment core stripe options [])
       = [Stripe.Retrieve id; Stripe.Create params]
       /\ Stripe.invoices_retrieve stripe id = Stripe.Resolved invoice
       /\ Stripe.Invoice.subtotal invoice = Some sub
       /\ 0 < sub
       /\ Stripe.invoiceItems_create stripe params
          = Stripe.Resolved (StripeAdjustmentResult.invoiceItem result)
       /\ Stripe.InvoiceItemCreateParams.amount params
          = - StripeAdjustmentResult.discount result
       /\ sub + Stripe.InvoiceItemCreateParams.amount params
          = StripeAdjustmentResult.adjustedSubtotal result
       /\ Stripe.InvoiceItemCreateParams.invoice params = id
       /\ Stripe.InvoiceItemCreateParams.customer params
          = Stripe.Invoice.customer invoice
       /\ Stripe.InvoiceItemCreateParams.currency params
          = Stripe.Invoice.currency invoice.
Proof.
  intros Hcore Hres. cbv zeta.
  destruct (adjuster_cases stripe options)
    as [[reason H] | (invoice & H & [Hst | [Hst [Hsub | (sub & Hsub & Hnz)]]])].
  - rewrite (adjuster_retrieve_rejected core stripe options reason H) in Hres.
    discriminate Hres.
  - rewrite (adjuster_not_draft core stripe options invoice H Hst) in Hres.
    discriminate Hres.
  - rewrite (adjuster_zero_subtotal core stripe options invoice H Hst Hsub)
      in Hres.
    discriminate Hres.
  - set (p := mkParams sub (StripeAdjustmentOptions.targetTotal options)
                (StripeAdjustmentOptions.taxRate options)
                (Some (roundModeOrDefault
                         (StripeAdjustmentOptions.roundMode options)))).
    destruct (isValid (core p)) eqn:Hv.
    + rewrite (adjuster_valid core stripe options invoice sub H Hst Hsub Hnz Hv)
        in Hres |- *.
      fold p in Hres |- *. cbn [fst snd] in Hres |- *.
      destruct (Stripe.invoiceItems_create stripe _) as [item | reason] eqn:Hc;
        [| discriminate Hres].
      injection Hres as <-.
      destruct (core_valid_outcome core p Hcore Hv)
        as ([Hs Hr] & (Ha & Hn & Htax & Hf & _) & Ht).
      cbn [subtotal targetTotal taxRate roundMode roundModeOrDefault p]
        in Hs, Hr, Ha, Hn, Htax, Hf, Ht.
      cbn [StripeAdjustmentResult.finalTotal
           StripeAdjustmentResult.adjustedSubtotal
           StripeAdjustmentResult.taxAmount
           StripeAdjustmentResult.discount
           StripeAdjustmentResult.invoiceItem].
      split; [exact Ht |]. split; [lia |]. split; [exact Htax |].
      split; [exact Hn |].
      exists invoice, sub. eexists. split; [reflexivity |].
      cbn [Stripe.InvoiceItemCreateParams.amount
           Stripe.InvoiceItemCreateParams.invoice
           Stripe.InvoiceItemCreateParams.customer
           Stripe.InvoiceItemCreateParams.currency].
      repeat split; try assumption; try reflexivity; lia.
    + rewrite (adjuster_invalid core stripe options invoice sub H Hst Hsub Hnz Hv)
        in Hres.
      discriminate Hres.
Qed.

Lemma X18_resolved_adjustment_is_exact_witness :
  fst (TaxFitter.applyAdjustment Bisection.calculateAdjustment
         (mockStripe draftInvoice) workedOptions [])
  = Stripe.Resolved
      (StripeAdjustmentResult.mk "ii_test123"%string 3636 286364 28636 315000)
  /\ StripeAdjustmentResult.finalTotal
       (StripeAdjustmentResult.mk "ii_test123"%string 3636 286364 28636 315000)
     = StripeAdjustmentOptions.targetTotal workedOptions.
Proof.
  assert (H : fst (TaxFitter.applyAdjustment Bisection.calculateAdjustment
                     (mockStripe draftInvoice) workedOptions [])
              = Stripe.Resolved
                  (StripeAdjustmentResult.mk "ii_test123"%string
                     3636 286364 28636 315000))
    by (vm_compute; reflexivity).
  split; [exact H |].
  apply (X18_resolved_adjustment_is_exact Bisection.calculateAdjustment
           (mockStripe draftInvoice) workedOptions _ (or_introl eq_refl) H).
Defined.



Lemma adjustmentMetadata_get (metadata : option Stripe.Metadata)
  (sub t d : Z) :
  let m := adjustmentMetadata metadata sub t d in
  Stripe.get "tax_fitter_adjustment" m = Some "true"%string
  /\ Stripe.get "original_subtotal" m = Some (string_of_Z sub)
  /\ Stripe.get "target_total" m = Some (string_of_Z t)
  /\ Stripe.get "calculated_discount" m = Some (string_of_Z d)
  /\ forall key,
       key <> "tax_fitter_adjustment"%string ->
       key <> "original_subtotal"%string ->
       key <> "target_total"%string ->
       key <> "calculated_discount"%string ->
       Stripe.get key m
       = Stripe.get key match metadata with
                        | Some properties => properties
                        | None => []
                        end.
Proof.
  cbv zeta. unfold adjustmentMetadata.
  repeat split.
  - rewrite !get_set_other by discriminate. apply get_set_same.
  - rewrite !get_set_other by discriminate. apply get_set_same.
  - rewrite !get_set_other by discriminate. apply get_set_same.
  - apply get_set_same.
  - intros key H1 H2 H3 H4. rewrite !get_set_other by assumption.
    reflexivity.
Qed.

(** X20. The metadata of every line item the adjuster creates carries the
    adjuster's four properties, whatever the caller passed under those
    names: [tax_fitter_adjustment] is ["true"], [original_subtotal] the
    invoice's subtotal, [target_total] the target and
    [calculated_discount] the discount (the negated amount), in decimal;
    every other property of the caller's metadata is passed unchanged. *)
Theorem X20_line_item_metadata {InvoiceItem : Type}
  (core : AdjustmentParams -> AdjustmentResult)
  (stripe : Stripe.Client InvoiceItem) (options : StripeAdjustmentOptions.t)
  (params : Stripe.InvoiceItemCreateParams.t) :
  In (Stripe.Create params)
     (snd (TaxFitter.applyAdjustment core stripe options [])) ->
  let m := Stripe.InvoiceItemCreateParams.metadata params in
  Stripe.get "tax_fitter_adjustment" m = Some "true"%string
  /\ (exists invoice,
        Stripe.invoices_retrieve stripe
          (StripeAdjustmentOptions.invoiceId options)
        = Stripe.Resolved invoice
        /\ Stripe.get "original_subtotal" m
           = option_map string_of_Z (Stripe.Invoice.subtotal invoice))
  /\ Stripe.get "target_total" m
     = Some (string_of_Z (StripeAdjustmentOptions.targetTotal options))
  /\ Stripe.get "calculated_discount" m
     = Some (string_of_Z (- Stripe.InvoiceItemCreateParams.amount params))
  /\ forall key,
       key <> "tax_fitter_adjustment"%string ->
       key <> "original_subtotal"%string ->
       key <> "target_total"%string ->
       key <> "calculated_discount"%string ->
       Stripe.get key m
       = Stripe.get key
           match StripeAdjustmentOptions.metadata options with
           | Some properties => properties
           | None => []
           end.
Proof.
  intros Hin. cbv zeta.
  destruct (adjuster_calls core stripe options)
    as [Hc | (invoice & sub & params' & Hc & H & Hst & Hsub & Hnz & Hv & _)];
    cbv zeta in Hc; rewrite Hc in Hin.
  - destruct Hin as [Hin | []]. discriminate Hin.
  - destruct Hin as [Hin | [Hin | []]]; [discriminate Hin |].
    injection Hin as ->.
    rewrite (adjuster_valid core stripe options invoice sub H Hst Hsub Hnz Hv)
      in Hc.
    injection Hc as <-.
    cbn [Stripe.InvoiceItemCreateParams.metadata
         Stripe.InvoiceItemCreateParams.amount].
    rewrite Z.opp_involutive.
    destruct (adjustmentMetadata_get
                (StripeAdjustmentOptions.metadata options) sub
                (StripeAdjustmentOptions.targetTotal options)
                (discount
                   (core (mkParams sub
                            (StripeAdjustmentOptions.targetTotal options)
                            (StripeAdjustmentOptions.taxRate options)
                            (Some (roundModeOrDefault
                                     (StripeAdjustmentOptions.roundMode
                                        options)))))))
      as (G1 & G2 & G3 & G4 & G5).
    split; [exact G1 |].
    split; [exists invoice; split; [exact H | rewrite Hsub; exact G2] |].
    split; [exact G3 |]. split; [exact G4 | exact G5].
Qed.

Lemma X20_line_item_metadata_witness :
  In (Stripe.Create taggedItem)
     (snd (TaxFitter.applyAdjustment Bisection.calculateAdjustment
             (mockStripe draftInvoice) taggedOptions []))
  /\ Stripe.get "tax_fitter_adjustment"
       (Stripe.InvoiceItemCreateParams.metadata taggedItem)
     = Some "true"%string.
Proof.
  assert (H : In (Stripe.Create taggedItem)
                (snd (TaxFitter.applyAdjustment Bisection.calculateAdjustment
                        (mockStripe draftInvoice) taggedOptions [])))
    by (vm_compute; right; left; reflexivity).
  split; [exact H |].
  apply (X20_line_item_metadata Bisection.calculateAdjustment
           (mockStripe draftInvoice) taggedOptions taggedItem H).
Defined.

(** ** The scan around an estimate: what it minimizes *)

Lemma closestFor_spec (s t : Z) (rate : Q) (mode : RoundMode) (est : Z)
  (indices : list Z) : forall v log,
  0 <= s - Estimate.bestDiscount v ->
  Estimate.bestDifference v
  = Z.abs (total s rate mode (Estimate.bestDiscount v) - t) ->
  let v' := fst (Estimate.closestFor s t rate mode est indices v log) in
  0 <= s - Estimate.bestDiscount v'
  /\ Estimate.bestDifference v'
     = Z.abs (total s rate mode (Estimate.bestDiscount v') - t)
  /\ Estimate.bestDifference v' <= Estimate.bestDifference v
  /\ forall i, In i indices -> 0 <= s - (est + i) ->
       Estimate.bestDifference v'
       <= Z.abs (total s rate mode (est + i) - t).
Proof.
  induction indices as [| i indices IH]; intros v log Hn Hd; cbv zeta; simpl.
  - repeat split; try assumption; try lia.
  - unfold bind.
    destruct (Estimate.closestBody s t rate mode est v i log) as [v1 log1]
      eqn:Eb.
    assert (H1 : 0 <= s - Estimate.bestDiscount v1
                 /\ Estimate.bestDifference v1
                    = Z.abs (total s rate mode (Estimate.bestDiscount v1) - t)
                 /\ Estimate.bestDifference v1 <= Estimate.bestDifference v
                 /\ (0 <= s - (est + i) ->
                     Estimate.bestDifference v1
                     <= Z.abs (total s rate mode (est + i) - t))).
    { revert Eb. unfold Estimate.closestBody.
      destruct (s - (est + i) <? 0) eqn:E1.
      - apply Z.ltb_lt in E1. unfold ret. intros [= <- _].
        repeat split; try assumption; lia.
      - apply Z.ltb_ge in E1. unfold bind, applyTaxM, Math.abs.
        fold (total s rate mode (est + i)).
        destruct (Z.abs (total s rate mode (est + i) - t)
                  <? Estimate.bestDifference v) eqn:E2;
          [apply Z.ltb_lt in E2 | apply Z.ltb_ge in E2];
          unfold ret; intros [= <- _]; simpl;
          repeat split; try assumption; lia. }
    destruct H1 as (Hn1 & Hd1 & Hle1 & Hi1).
    specialize (IH v1 log1 Hn1 Hd1). cbv zeta in IH.
    destruct IH as (Hn2 & Hd2 & Hle2 & Hall).
    repeat split; try assumption; try lia.
    intros j [<- | Hj] Hnn; [specialize (Hi1 Hnn); lia | auto].
Qed.

(** X21. What the scan around an estimate minimizes: for a request that
    passes validation, its [finalTotal] is at least as close to the target
    as the current total and as the total of every discount of its window
    [initialEstimate - searchRadius .. initialEstimate + searchRadius]
    that leaves a non-negative adjusted subtotal. *)
Theorem X21_estimate_closest_in_window (params : AdjustmentParams) (i : Z) :
  0 <= subtotal params -> (0 <= taxRate params <= 1)%Q ->
  let s := subtotal params in
  let t := targetTotal params in
  let mode := roundModeOrDefault (roundMode params) in
  let currentTotal := s + applyTax s (taxRate params) mode in
  let totalDifference := currentTotal - t in
  let initialEstimate :=
    Math.floor (inject_Z totalDifference / (1 + taxRate params))%Q in
  let searchRadius :=
    Math.abs (Math.ceil (inject_Z totalDifference)) + 100 in
  let r := Estimate.calculateAdjustment params in
  Z.abs (finalTotal r - t) <= Z.abs (currentTotal - t)
  /\ (- searchRadius <= i <= searchRadius ->
      0 <= s - (initialEstimate + i) ->
      Z.abs (finalTotal r - t)
      <= Z.abs (total s (taxRate params) mode (initialEstimate + i) - t)).
Proof.
  intros Hs Hr. cbv zeta.
  unfold Estimate.calculateAdjustment, Estimate.calculateAdjustmentM.
  set (s := subtotal params). set (t := targetTotal params).
  set (rate := taxRate params).
  set (mode := roundModeOrDefault (roundMode params)).
  destruct (validation_passes s rate Hs Hr) as [V1 V2].
  set (est := Math.floor (inject_Z (s + applyTax s rate mode - t)
                          / (1 + rate))%Q).
  set (R := Math.abs (Math.ceil (inject_Z (s + applyTax s rate mode - t)))
            + 100).
  set (P := fun r =>
              Z.abs (finalTotal r - t)
              <= Z.abs (s + applyTax s rate mode - t)
              /\ (- R <= i <= R -> 0 <= s - (est + i) ->
                  Z.abs (finalTotal r - t)
                  <= Z.abs (total s rate mode (est + i) - t))).
  change (P (fst (Estimate.search s t rate mode []))).
  unfold Estimate.search. rewrite V1, V2.
  unfold bind at 1, applyTaxM at 1.
  fold est R.
  destruct (s + applyTax s rate mode =? t) eqn:E.
  - apply Z.eqb_eq in E. unfold ret, P. cbn [fst finalTotal]. lia.
  - unfold bind at 1.
    pose proof (exactFor_spec s t rate mode est (zrange (- R) R) [s]) as HX.
    destruct (Estimate.exactFor s t rate mode est (zrange (- R) R) [s])
      as [[r | u] log].
    + destruct HX as (_ & Hf & _). unfold ret, P. cbn [fst]. rewrite Hf. lia.
    + clear HX. unfold bind.
      match goal with |- context [Estimate.closestFor _ _ _ _ _ _ ?v ?g] =>
        pose proof (closestFor_spec s t rate mode est (zrange (- R) R) v g)
          as HC;
        destruct (Estimate.closestFor s t rate mode est (zrange (- R) R) v g)
          as [v' log']
      end.
      cbn [fst Estimate.bestDiscount Estimate.bestDifference] in HC.
      assert (H0 : Math.abs (s + applyTax s rate mode - t)
                   = Z.abs (total s rate mode 0 - t)).
      { unfold Math.abs, total. rewrite Z.sub_0_r. reflexivity. }
      specialize (HC ltac:(lia) H0).
      destruct HC as (Hn & Hd & Hle & Hall).
      unfold Estimate.bestMatch, bind, ret, applyTaxM, P. cbn [fst finalTotal].
      fold (total s rate mode (Estimate.bestDiscount v')).
      rewrite <- Hd. unfold Math.abs in Hle. split; [exact Hle |].
      intros Hi Hnn. apply Hall; [apply zrange_In; exact Hi | exact Hnn].
Qed.

Lemma X21_estimate_closest_in_window_witness :
  (0 <= subtotal (mkParams 1 101 1 None)
   /\ (0 <= taxRate (mkParams 1 101 1 None) <= 1)%Q)
  /\ Z.abs (finalTotal (Estimate.calculateAdjustment (mkParams 1 101 1 None))
            - 101) <= Z.abs (2 - 101).
Proof.
  assert (Hs : 0 <= subtotal (mkParams 1 101 1 None)) by (simpl; lia).
  assert (Hr : (0 <= taxRate (mkParams 1 101 1 None) <= 1)%Q)
    by (split; unfold Qle; simpl; lia).
  split; [split; assumption |].
  apply (X21_estimate_closest_in_window (mkParams 1 101 1 None) 0 Hs Hr).
Defined.
